(** * aleph UI: the document screen, the collection card and the entity store

    A shallow embedding of [ui/src/components/DocumentScreen/index.jsx]
    (the [DocumentScreen] component with its [mapStateToProps]) and of the
    [CollectionCard] component, together with a model of the entity store
    that the specification describes behind [state.entities] and
    [fetchDocument].

    JavaScript values are a small inductive type; component methods run in
    a writer monad that records what the method does to the outside world
    (indexing [state.entities], reading a property of a prop, dispatching an
    action) and that can stop with a [TypeError]. *)

From stdpp Require Import gmap strings list fin_maps.
From Stdlib Require Import ZArith.

Set Warnings "-register-all".

Local Open Scope string_scope.
Local Open Scope list_scope.

(** ** JavaScript values *)

Module JS.

(** Numbers are restricted to integers: no component under study does
    arithmetic, numbers only occur as payload fields.  [VNative] is an
    object or function of the runtime itself ([Object], [Object.prototype],
    [Object.prototype.toString], ...), told apart by its name. *)
Inductive Value : Type :=
| VUndefined
| VNull
| VBool (b : bool)
| VNum (n : Z)
| VStr (s : string)
| VObj (fields : list (string * Value))
| VNative (name : string).

(** A plain data object: own properties, first binding wins. *)
Abbreviation Obj := (list (string * Value)).

(** [ToBoolean]. *)
Definition truthy (v : Value) : bool :=
  match v with
  | VUndefined | VNull => false
  | VBool b => b
  | VNum n => negb (n =? 0)%Z
  | VStr s => negb (String.eqb s EmptyString)
  | VObj _ | VNative _ => true
  end.

(** [o[f]] on an object: the own property, [undefined] when there is none. *)
Fixpoint own (o : Obj) (f : string) : Value :=
  match o with
  | [] => VUndefined
  | (k, v) :: rest => if String.eqb k f then v else own rest f
  end.

(** [v.f]: a [TypeError] ([None]) on [undefined] and [null]; primitives
    and the runtime's own objects carry none of the properties the
    components read. *)
Definition member (v : Value) (f : string) : option Value :=
  match v with
  | VUndefined | VNull => None
  | VObj o => Some (own o f)
  | VBool _ | VNum _ | VStr _ | VNative _ => Some VUndefined
  end.

(** [a === undefined]. *)
Definition is_undefined (v : Value) : bool :=
  match v with VUndefined => true | _ => false end.

(** [a !== b] on values that are a string or [undefined]. *)
Definition strict_ne (a b : option string) : bool :=
  negb (bool_decide (a = b)).

(** Property keys are strings: [ToPropertyKey(undefined)] is ["undefined"]. *)
Definition property_key (k : option string) : string :=
  match k with
  | Some s => s
  | None => "undefined"
  end.

(** The methods every plain object inherits from [Object.prototype]. *)
Definition object_prototype_methods : list string :=
  ["__defineGetter__"; "__defineSetter__"; "hasOwnProperty";
   "__lookupGetter__"; "__lookupSetter__"; "isPrototypeOf";
   "propertyIsEnumerable"; "toString"; "valueOf"; "toLocaleString"].

(** What a plain object answers for a key it has no own property for:
    [constructor] is [Object], [__proto__] is [Object.prototype] itself, a
    method name is that method, and any other key has nothing. *)
Definition inherited (key : string) : option Value :=
  if String.eqb key "constructor" then Some (VNative "Object")
  else if String.eqb key "__proto__" then Some (VNative "Object.prototype")
  else if existsb (String.eqb key) object_prototype_methods
       then Some (VNative ("Object.prototype." +:+ key))
       else None.

End JS.

Import JS.

(** ** Effects of a component method *)

(** [fetchDocument({ id })], the only action the screen dispatches. *)
Inductive Action : Type :=
| FetchDocument (id : option string).

Inductive Event : Type :=
| Index (key : option string)        (* state.entities[key] *)
| Member (prop field : string)       (* prop.field *)
| Dispatch (a : Action).             (* this.props.fetchDocument(...) *)

(** A run: what happened, and the value returned unless a [TypeError] was
    thrown. *)
Record Eff (A : Type) : Type := MkEff {
  trace : list Event;
  outcome : option A
}.
Arguments MkEff {A} _ _.
Arguments trace {A} _.
Arguments outcome {A} _.

Definition eff_bind {A B} (f : A → Eff B) (m : Eff A) : Eff B :=
  match outcome m with
  | Some a => MkEff (trace m ++ trace (f a)) (outcome (f a))
  | None => MkEff (trace m) None
  end.

#[global] Instance Eff_ret : MRet Eff := λ A a, MkEff [] (Some a).
#[global] Instance Eff_bind : MBind Eff := λ A B f m, eff_bind f m.

Definition emit (e : Event) : Eff unit := MkEff [e] (Some tt).

(** [prop.field] where [v] is the value of [prop]. *)
Definition read (prop : string) (v : Value) (field : string) : Eff Value :=
  MkEff [Member prop field] (member v field).

Definition dispatch (a : Action) : Eff unit := emit (Dispatch a).

Definition dispatches (l : list Event) : list Action :=
  omap (λ e, match e with Dispatch a => Some a | _ => None end) l.

Definition indexed (l : list Event) : list (option string) :=
  omap (λ e, match e with Index k => Some k | _ => None end) l.

Definition fields_read (prop : string) (l : list Event) : list string :=
  omap (λ e, match e with
             | Member p f => if String.eqb p prop then Some f else None
             | _ => None
             end) l.

(** A trace that only reads properties of props: nothing is dispatched and
    the store is not touched. *)
Definition only_reads (l : list Event) : Prop :=
  Forall (λ e, match e with Member _ _ => True | _ => False end) l.

(** ** What a render returns *)

Inductive Element : Type :=
| Elem (tag : string) (attrs : list (string * Attr)) (children : list Element)
| Expr (v : Value)                    (* a {expression} child *)
with Attr : Type :=
| AVal (v : Value)
| AValues (vs : list (string * Element)).

(** [<ScreenLoading />] *)
Definition screen_loading : Element := Elem "ScreenLoading" [] [].

(** ** The Redux state and the router props *)

(** [state.entities] is a plain object: [entities] are its own
    properties, one object per id, and behind them stands
    [Object.prototype]. *)
Record State : Type := { entities : gmap string Obj }.

(** [m[k]] on a plain object whose own properties are [m]: the own
    property, else what [Object.prototype] has under that name, else
    [undefined]. *)
Definition bracket (m : gmap string Obj) (k : string) : Value :=
  match m !! k with
  | Some o => VObj o
  | None => default VUndefined (inherited k)
  end.

Module Router.
Record Params : Type := { documentId : option string }.
Record Match : Type := { params : Params }.
Record Location : Type := { hash : string }.
Record OwnProps : Type := { match_ : Match; location : Location }.
End Router.

(** The props the router hands to a screen mounted at a route whose
    [documentId] parameter is [i]. *)
Definition route (i : option string) (loc : Router.Location) : Router.OwnProps :=
  {| Router.match_ := {| Router.params := {| Router.documentId := i |} |};
     Router.location := loc |}.

(** The store entry for an id is absent, or an object whose [isFetching]
    is truthy. *)
Definition absent_or_fetching (entry : option Obj) : Prop :=
  entry = None ∨ ∃ o, entry = Some o ∧ truthy (own o "isFetching") = true.

#[global] Instance absent_or_fetching_dec entry : Decision (absent_or_fetching entry).
Proof.
  destruct entry as [o|]; [|left; by left].
  destruct (truthy (own o "isFetching")) eqn:Hf.
  - left. right. by exists o.
  - right. intros [[=]|(o' & [= <-] & Hf')]. congruence.
Defined.

(** [state.entities[key]] *)
Definition index (m : gmap string Obj) (key : option string) : Eff Value :=
  MkEff [Index key] (Some (bracket m (property_key key))).

(** ** DocumentScreen *)

Module DocumentScreen.

Record Props : Type := {
  documentId : option string;
  document : Value;
  location : Router.Location
}.

Record StateProps : Type := {
  mapped_documentId : option string;
  mapped_document : Value
}.

Definition componentDidMount (props : Props) : Eff unit :=
  let documentId := documentId props in
  dispatch (FetchDocument documentId).

Definition componentDidUpdate (props prevProps : Props) : Eff unit :=
  let documentId' := documentId props in
  if strict_ne documentId' (documentId prevProps)
  then dispatch (FetchDocument documentId')
  else mret tt.

Definition entity_link (entity : Value) : Element :=
  Elem "Entity.Link"
       [("entity", AVal entity); ("className", AVal (VStr "pt-breadcrumb"));
        ("icon", AVal (VBool true)); ("truncate", AVal (VNum 30%Z))] [].

Definition render (props : Props) : Eff Element :=
  let document := document props in
  let location := location props in
  loading ← (if is_undefined document then mret true
             else f ← read "document" document "isFetching"; mret (truthy f));
  if (loading : bool) then mret (Elem "ScreenLoading" [] [])
  else
    title ← read "document" document "title";
    title ← (if truthy title then mret title
             else read "document" document "file_name");
    collection ← read "document" document "collection";
    parent ← read "document" document "parent";
    parent_item ← (if truthy parent
                   then p ← read "document" document "parent";
                        mret (Elem "li" [] [entity_link p])
                   else mret (Expr parent));
    mret (Elem "Screen" []
            [Elem "Helmet" [] [Elem "title" [] [Expr title]];
             Elem "Breadcrumbs" [("collection", AVal collection)]
                  [parent_item; Elem "li" [] [entity_link document]];
             Elem "DualPane" []
                  [Elem "DocumentInfo" [("document", AVal document)] [];
                   Elem "DocumentContent"
                        [("document", AVal document);
                         ("fragId", AVal (VStr (Router.hash location)))] []]]).

Definition mapStateToProps (state : State) (ownProps : Router.OwnProps)
  : Eff StateProps :=
  let documentId := Router.documentId (Router.params (Router.match_ ownProps)) in
  document ← (if strict_ne documentId None
              then index (entities state) documentId
              else mret VUndefined);
  mret {| mapped_documentId := documentId; mapped_document := document |}.

(** [connect(mapStateToProps, { fetchDocument })(DocumentScreen)]: the
    props of the wrapped component are the router's own props merged with
    the mapped ones. *)
Definition connect (state : State) (ownProps : Router.OwnProps) : Eff Props :=
  sp ← mapStateToProps state ownProps;
  mret {| documentId := mapped_documentId sp;
          document := mapped_document sp;
          location := Router.location ownProps |}.

(** Mounting: the first render, then [componentDidMount]. *)
Definition mount (state : State) (ownProps : Router.OwnProps)
  : Eff (Props * Element) :=
  props ← connect state ownProps;
  el ← render props;
  _ ← componentDidMount props;
  mret (props, el).

(** An update: re-render with the new props, then [componentDidUpdate]
    with the previous ones. *)
Definition update (prevProps : Props) (state : State)
           (ownProps : Router.OwnProps) : Eff (Props * Element) :=
  props ← connect state ownProps;
  el ← render props;
  _ ← componentDidUpdate props prevProps;
  mret (props, el).

(** A run of updates after a mount: every update sees the props of the
    one before it. *)
Fixpoint updates (prevProps : Props)
         (changes : list (State * Router.OwnProps)) : Eff Props :=
  match changes with
  | [] => mret prevProps
  | (state, ownProps) :: rest =>
      r ← update prevProps state ownProps;
      updates (fst r) rest
  end.

End DocumentScreen.

(** ** CollectionCard *)

Module CollectionCard.

Record Props : Type := { collection : Value }.

Definition formatted_message (id defaultMessage : string)
           (values : list (string * Element)) : Element :=
  Elem "FormattedMessage"
       ([("id", AVal (VStr id)); ("defaultMessage", AVal (VStr defaultMessage))]
          ++ match values with [] => [] | _ => [("values", AValues values)] end)
       [].

Definition div (className : string) (children : list Element) : Element :=
  Elem "div" [("className", AVal (VStr className))] children.

Definition render (props : Props) : Eff Element :=
  let collection := collection props in
  empty ← (if negb (truthy collection) then mret true
           else i ← read "collection" collection "id"; mret (negb (truthy i)));
  if (empty : bool) then mret (Elem "span" [] [])
  else
    count ← read "collection" collection "count";
    summary ← read "collection" collection "summary";
    summary_p ← (if truthy summary
                 then s ← read "collection" collection "summary";
                      mret (Elem "p" []
                              [Elem "Truncate" [("lines", AVal (VNum 2%Z))] [Expr s]])
                 else mret (Expr summary));
    summary' ← read "collection" collection "summary";
    let missing_p :=
      if negb (truthy summary')
      then Elem "p" [("className", AVal (VStr "missing"))]
                [formatted_message "collection.summary.missing"
                   "This collection has no description." []]
      else Expr (VBool false) in
    updated_at ← read "collection" collection "updated_at";
    mret (Elem "Collection.Link"
            [("collection", AVal collection);
             ("className", AVal (VStr "noLinkDecoration"))]
            [div "CollectionCard pt-card pt-elevation-1 pt-interactive"
               [Elem "h4" []
                  [Elem "Collection.Label" [("collection", AVal collection)] []];
                div "facts"
                  [div "fact"
                     [Elem "Category" [("collection", AVal collection)] []];
                   div "fact"
                     [formatted_message "collection.total.count" "{count} Entries"
                        [("count",
                          Elem "FormattedNumber" [("value", AVal count)] [])]]];
                summary_p;
                missing_p;
                div "bottom-fact"
                  [Elem "i" [("className", AVal (VStr "fa fa-fw fa-refresh"))] [];
                   formatted_message "collection.last_updated"
                     "Last updated: {date}"
                     [("date", Elem "Date" [("value", AVal updated_at)] [])]]]]).

End CollectionCard.

(** ** The entity store *)

(** The reducer that fills [state.entities] and the [fetchDocument] action
    creator (imported from [src/actions]) are outside the two components
    embedded above.  The store below is written from the specification's
    description of them; the components meet it through [deliver] (an action
    they dispatch reaches [fetch]) and [redux] (the state they are
    connected to shows the store's records). *)

Module EntityStore.

Abbreviation EntityId := string.

(** Modelled from the spec: the entity payload, missing with the
    reducer; "arbitrary domain object with at least [id]; additional
    fields opaque to the store". *)
Record Payload : Type := { id : EntityId; fields : Obj }.

(** Modelled from the spec: the error taxonomy of the absent fetch
    action; "NetworkError (transport failure), NotFoundError
    (404-equivalent), ServerError (5xx-equivalent)", carrying the status
    code or message that is "preserved verbatim". *)
Inductive FetchError : Type :=
| NetworkError (message : string)
| NotFoundError
| ServerError (status : Z).

(** Modelled from the spec: the entity value union of the absent store,
    "NotRequested | Fetching | Loaded(payload) | Failed(error)". *)
Inductive EntityState : Type :=
| NotRequested
| Fetching
| Loaded (payload : Payload)
| Failed (error : FetchError).

(** Modelled from the spec: the promise the absent [fetchDocument]
    returns; "returns the same in-flight operation".  An operation is a
    network call: the [serial]-th one the store issued, for [target]. *)
Record Operation : Type := { serial : nat; target : EntityId }.

#[global] Instance Operation_eq_dec : EqDecision Operation.
Proof. solve_decision. Defined.

(** Modelled from the spec: a record of the absent reducer; "record
    created on first fetch dispatch (state → Fetching); mutated to
    Loaded/Failed on completion".  A record that is being fetched remembers
    its operation, so that a later [fetch] can hand out "the same in-flight
    operation". *)
Inductive Entry : Type :=
| InFlight (op : Operation)
| Have (payload : Payload)
| Err (error : FetchError).

(** Modelled from the spec: the store state of the absent reducer.
    [records] is the "mapping from EntityId to an entity value" (no
    record: [NotRequested]); [network] are the requests that are out and
    not yet answered; [calls] logs every network call issued, oldest
    first; [resolved] is what each finished operation resolved to. *)
Record Store : Type := {
  records : gmap EntityId Entry;
  network : list Operation;
  calls : list EntityId;
  resolved : gmap nat EntityState
}.

(** Modelled from the spec: the initial state of the absent reducer;
    "created at session start", with nothing seen and nothing in flight. *)
Definition empty : Store :=
  {| records := ∅; network := []; calls := []; resolved := ∅ |}.

(** Modelled from the spec: how the absent store reports a record;
    "returns [NotRequested] if id unseen". *)
Definition state_of (e : option Entry) : EntityState :=
  match e with
  | None => NotRequested
  | Some (InFlight _) => Fetching
  | Some (Have p) => Loaded p
  | Some (Err e) => Failed e
  end.

(** Modelled from the spec: [get] of the absent store; "synchronous
    read, returns [NotRequested] if id unseen". *)
Definition get (st : Store) (i : EntityId) : EntityState :=
  state_of (records st !! i).

(** Modelled from the spec: what the absent [fetch] returns,
    [Promise<EntityState>]: a state at once ("returns immediately"), or the
    operation whose completion the caller waits for. *)
Inductive Fetched : Type :=
| Settled (s : EntityState)
| Pending (op : Operation).

(** Modelled from the spec: [fetch] of the absent [fetchDocument]
    action.  "If current state is [Fetching], returns the same in-flight
    operation (no duplicate network call).  If [Loaded], returns
    immediately without a network call.  Otherwise transitions to
    [Fetching], issues the network request". *)
Definition fetch (i : EntityId) (st : Store) : Fetched * Store :=
  match records st !! i with
  | Some (InFlight op) => (Pending op, st)
  | Some (Have p) => (Settled (Loaded p), st)
  | Some (Err _) | None =>
      let op := {| serial := length (calls st); target := i |} in
      (Pending op,
       {| records := <[i := InFlight op]> (records st);
          network := op :: network st;
          calls := calls st ++ [i];
          resolved := resolved st |})
  end.

(** Modelled from the spec: the network boundary, absent with the
    action; "one HTTP-style read endpoint per entity kind (fetch document
    by id), returning a JSON-like payload with at least [{ id, ...fields }];
    errors returned as non-2xx responses or transport failures".  The
    backend, which assigns the ids, holds the domain objects; the endpoint
    looks the requested one up by its id. *)
Inductive Network : Type :=
| Up (backend : list Payload)
| ServerFault (status : Z)
| TransportFailure (message : string).

(** Modelled from the spec: the read endpoint of the absent network
    layer, "fetch document by id": the backend's object with the requested
    id, a 404 when it has none, the failure otherwise. *)
Definition endpoint (net : Network) (i : EntityId) : Payload + FetchError :=
  match net with
  | Up backend =>
      match find (λ p, String.eqb (id p) i) backend with
      | Some p => inl p
      | None => inr NotFoundError
      end
  | ServerFault status => inr (ServerError status)
  | TransportFailure message => inr (NetworkError message)
  end.

(** Modelled from the spec: the record the absent reducer writes for a
    reply; "on success [Loaded(payload)]; on failure [Failed(error)]". *)
Definition settle (r : Payload + FetchError) : Entry :=
  match r with
  | inl p => Have p
  | inr e => Err e
  end.

(** Modelled from the spec: completion of a fetch in the absent
    reducer; "on success transitions to [Loaded(payload)]; on failure
    transitions to [Failed(error)]".  Only a request that is out can be
    answered. *)
Definition complete (op : Operation) (net : Network) (st : Store)
  : option Store :=
  if decide (op ∈ network st) then
    let entry := settle (endpoint net (target op)) in
    Some {| records := <[target op := entry]> (records st);
            network := filter (λ o, o ≠ op) (network st);
            calls := calls st;
            resolved := <[serial op := state_of (Some entry)]> (resolved st) |}
  else None.

(** Modelled from the spec: what the promise of the absent [fetch] has
    resolved to; what a caller holding [r] has been given by the time the
    store is [st]. *)
Definition eventual (r : Fetched) (st : Store) : option EntityState :=
  match r with
  | Settled s => Some s
  | Pending op => resolved st !! serial op
  end.

(** What can happen to the store: somebody calls [fetch], or the network
    answers a request. *)
Inductive Step : Type :=
| CallFetch (i : EntityId)
| Reply (op : Operation) (net : Network).

Definition step (st : Store) (ev : Step) : option Store :=
  match ev with
  | CallFetch i => Some (snd (fetch i st))
  | Reply op net => complete op net st
  end.

Fixpoint run (evs : list Step) (st : Store) : option Store :=
  match evs with
  | [] => Some st
  | ev :: rest =>
      match step st ev with
      | Some st' => run rest st'
      | None => None
      end
  end.

Definition fetched_ids (evs : list Step) : list EntityId :=
  omap (λ ev, match ev with CallFetch i => Some i | Reply _ _ => None end) evs.

(** Modelled from the spec: the binding of the absent [fetchDocument]
    to the store, "[fetch(id)] dispatched on mount/update".  The store
    takes entity ids; a [fetchDocument] whose id is [undefined] names no
    entity and is not delivered. *)
Definition deliver (a : Action) (st : Store) : option (Fetched * Store) :=
  match a with
  | FetchDocument (Some i) => Some (fetch i st)
  | FetchDocument None => None
  end.

(** The actions a view dispatched, handed to the store in order; the
    callers' returns are collected. *)
Fixpoint deliver_all (acts : list Action) (st : Store)
  : option (list Fetched * Store) :=
  match acts with
  | [] => Some ([], st)
  | a :: rest =>
      match deliver a st with
      | Some (r, st') =>
          match deliver_all rest st' with
          | Some (rs, st'') => Some (r :: rs, st'')
          | None => None
          end
      | None => None
      end
  end.

(** Modelled from the spec: the [state.entities] of the absent reducer,
    "a normalized, keyed cache of fetched domain objects plus per-key
    fetch-status tracking": each record as the object the reducer keeps for
    it.  How a record is laid out as an object is left open. *)
Definition redux (layout : Entry → Obj) (st : Store) : State :=
  {| entities := layout <$> records st |}.

(** The requests for [i] that are out. *)
Definition in_flight (i : EntityId) (st : Store) : list Operation :=
  filter (λ op, target op = i) (network st).
Arguments in_flight : simpl never.

(** What the store maintains: no two requests that are out have the same
    target, and the record of an id is being fetched, by [op], exactly when
    [op] is out for that id. *)
Record consistent (st : Store) : Prop := {
  one_per_id : NoDup (target <$> network st);
  fetching_iff_out :
    ∀ i op, records st !! i = Some (InFlight op) ↔ op ∈ network st ∧ target op = i
}.

End EntityStore.

(** The props [connect] hands to the screen: the route's id, the entry
    [state.entities] has for it, and the router's location. *)
Definition connected (state : State) (ownProps : Router.OwnProps)
  : DocumentScreen.Props :=
  let i := Router.documentId (Router.params (Router.match_ ownProps)) in
  {| DocumentScreen.documentId := i;
     DocumentScreen.document :=
       match i with
       | Some k => bracket (entities state) k
       | None => VUndefined
       end;
     DocumentScreen.location := Router.location ownProps |}.

(** ** Sample data *)

Definition at_doc_1 (entry : option Obj) : State :=
  {| entities := match entry with
                 | Some o => {[ "doc-1" := o ]}
                 | None => ∅
                 end |}.

Definition props_doc_1 : DocumentScreen.Props :=
  {| DocumentScreen.documentId := Some "doc-1";
     DocumentScreen.document := VUndefined;
     DocumentScreen.location := {| Router.hash := EmptyString |} |}.

Module Samples.
Import EntityStore.

Definition doc_1 : Payload := {| id := "doc-1"; fields := [("title", VStr "A")] |}.
Definition doc_2 : Payload := {| id := "doc-2"; fields := [("title", VStr "B")] |}.

Definition first_call (i : EntityId) : Operation := {| serial := 0; target := i |}.

(** After one [fetch] of ["doc-3"]. *)
Definition doc_3_out : Store := snd (fetch "doc-3" empty).

(** After ["doc-1"] was fetched and answered. *)
Definition doc_1_loaded : Store :=
  default empty (run [CallFetch "doc-1"; Reply (first_call "doc-1") (Up [doc_1])] empty).

(** After ["doc-2"] was fetched and the backend did not have it. *)
Definition doc_2_failed : Store :=
  default empty (run [CallFetch "doc-2"; Reply (first_call "doc-2") (Up [doc_1])] empty).

(** After one [fetch] of ["doc-1"]; then with ["doc-2"] fetched as well;
    then with the request for ["doc-1"] answered. *)
Definition doc_1_out : Store := snd (fetch "doc-1" empty).

Definition doc_1_doc_2_out : Store := snd (fetch "doc-2" doc_1_out).

Definition doc_1_answered : Store :=
  default empty (complete (first_call "doc-1") (Up [doc_2; doc_1]) doc_1_doc_2_out).

End Samples.

(** ** Runs of updates *)

(** The ids, in a run of ids that follows [prev], that differ from the id
    just before them. *)
Fixpoint id_changes (prev : option string) (ids : list (option string))
  : list (option string) :=
  match ids with
  | [] => []
  | i :: rest => (if decide (i = prev) then [] else [i]) ++ id_changes i rest
  end.

(** The route ids of a run of updates. *)
Definition route_ids (changes : list (State * Router.OwnProps))
  : list (option string) :=
  (λ c, Router.documentId (Router.params (Router.match_ (snd c)))) <$> changes.

(** ** HomeCtrl *)

(** The AngularJS controller of the home page.  The services injected
    into it are a world the controller acts on: the data properties of
    [$scope], whether [$scope.submitSearch] is the controller's function,
    and the calls made to [Title] and [$location], oldest first.  A
    [TypeError] leaves the world as it was when it was thrown. *)

Module Home.

Inductive ServiceCall : Type :=
| TitleSet (title : string)           (* Title.set(title) *)
| LocationPath (path : string)        (* $location.path(path) *)
| LocationSearch (search : Obj).      (* $location.search(search) *)

Record World : Type := {
  scope : Obj;
  submitSearch_installed : bool;
  service_calls : list ServiceCall
}.

Record M (A : Type) : Type := MkM { exec : World → World * option A }.
Arguments MkM {A} _.
Arguments exec {A} _ _.

#[global] Instance M_ret : MRet M := λ A a, MkM (λ w, (w, Some a)).
#[global] Instance M_bind : MBind M := λ A B f m,
  MkM (λ w, match exec m w with
            | (w', Some a) => exec (f a) w'
            | (w', None) => (w', None)
            end).

(** [o.k = v] on a plain object: the own property is replaced, or added. *)
Fixpoint assign (k : string) (v : Value) (o : Obj) : Obj :=
  match o with
  | [] => [(k, v)]
  | (k', v') :: rest =>
      if String.eqb k' k then (k, v) :: rest else (k', v') :: assign k v rest
  end.

(** [$scope.field = v] *)
Definition set_scope (field : string) (v : Value) : M unit :=
  MkM (λ w, ({| scope := assign field v (scope w);
                submitSearch_installed := submitSearch_installed w;
                service_calls := service_calls w |}, Some tt)).

(** [$scope.field] *)
Definition get_scope (field : string) : M Value :=
  MkM (λ w, (w, Some (own (scope w) field))).

(** [v.f], which throws on [undefined] and [null]. *)
Definition get_member (v : Value) (f : string) : M Value :=
  MkM (λ w, (w, member v f)).

Definition call (c : ServiceCall) : M unit :=
  MkM (λ w, ({| scope := scope w;
                submitSearch_installed := submitSearch_installed w;
                service_calls := service_calls w ++ [c] |}, Some tt)).

(** [$scope.submitSearch = function(form) { ... }] *)
Definition install_submitSearch : M unit :=
  MkM (λ w, ({| scope := scope w;
                submitSearch_installed := true;
                service_calls := service_calls w |}, Some tt)).

(** The body of [$scope.submitSearch]; it reads [$scope] when it is
    called. *)
Definition submitSearch (form : Value) : M unit :=
  _ ← call (LocationPath "/search");
  query ← get_scope "query";
  q ← get_member query "q";
  call (LocationSearch [("q", q)]).

(** The controller function, applied to the injected [statistics],
    [metadata] and [Authz] (the other injected services are not used). *)
Definition HomeCtrl (statistics metadata Authz : Value) : M unit :=
  _ ← set_scope "statistics" statistics;
  session ← get_member metadata "session";
  _ ← set_scope "session" session;
  _ ← set_scope "metadata" metadata;
  _ ← set_scope "query" (VObj [("q", VStr EmptyString)]);
  _ ← set_scope "authz" Authz;
  _ ← call (TitleSet "Welcome");
  install_submitSearch.

(** A page before its controller ran. *)
Definition blank : World :=
  {| scope := []; submitSearch_installed := false; service_calls := [] |}.

End Home.

(** * Properties *)

(** ** The effect monad *)

Section eff.
Context {A B : Type}.
Implicit Types (m : Eff A) (f : A → Eff B).

Lemma trace_bind m f :
  trace (m ≫= f) =
  trace m ++ match outcome m with Some a => trace (f a) | None => [] end.
Proof.
  unfold mbind, Eff_bind, eff_bind.
  destruct (outcome m); simpl; [done | by rewrite app_nil_r].
Qed.

Lemma outcome_bind m f :
  outcome (m ≫= f) = outcome m ≫= λ a, outcome (f a).
Proof. unfold mbind at 1, Eff_bind, eff_bind. by destruct (outcome m). Qed.
End eff.

Lemma dispatches_app l1 l2 : dispatches (l1 ++ l2) = dispatches l1 ++ dispatches l2.
Proof. apply omap_app. Qed.

Lemma indexed_app l1 l2 : indexed (l1 ++ l2) = indexed l1 ++ indexed l2.
Proof. apply omap_app. Qed.

Lemma strict_ne_false (a b : option string) : strict_ne a b = false ↔ a = b.
Proof.
  unfold strict_ne. rewrite negb_false_iff. apply bool_decide_eq_true.
Qed.

Lemma strict_ne_true (a b : option string) : strict_ne a b = true ↔ a ≠ b.
Proof.
  unfold strict_ne. rewrite negb_true_iff. apply bool_decide_eq_false.
Qed.

Lemma only_reads_quiet l : only_reads l → dispatches l = [] ∧ indexed l = [].
Proof.
  induction 1 as [|e l He _ [IHd IHi]]; [done|].
  by destruct e.
Qed.

(** ** DocumentScreen *)

Section document_screen.
Import DocumentScreen.

Lemma componentDidMount_trace props :
  trace (componentDidMount props) = [Dispatch (FetchDocument (documentId props))].
Proof. done. Qed.

Lemma componentDidUpdate_trace props prevProps :
  trace (componentDidUpdate props prevProps) =
  if decide (documentId props = documentId prevProps) then []
  else [Dispatch (FetchDocument (documentId props))].
Proof.
  unfold componentDidUpdate.
  destruct (strict_ne _ _) eqn:E.
  - apply strict_ne_true in E. by rewrite decide_False.
  - apply strict_ne_false in E. by rewrite decide_True.
Qed.

Lemma componentDidUpdate_outcome props prevProps :
  outcome (componentDidUpdate props prevProps) = Some tt.
Proof. unfold componentDidUpdate. by destruct (strict_ne _ _). Qed.

Lemma render_only_reads props : only_reads (trace (render props)).
Proof.
  unfold render, only_reads.
  destruct (document props) as [| |b|n|s|o|name]; simpl;
    repeat (first [ done | constructor | case_match; simpl ]).
Qed.

Lemma mapStateToProps_run state ownProps :
  mapStateToProps state ownProps =
  match Router.documentId (Router.params (Router.match_ ownProps)) with
  | Some i =>
      MkEff [Index (Some i)]
            (Some {| mapped_documentId := Some i;
                     mapped_document := bracket (entities state) i |})
  | None =>
      MkEff [] (Some {| mapped_documentId := None; mapped_document := VUndefined |})
  end.
Proof.
  unfold mapStateToProps.
  by destruct (Router.documentId _).
Qed.

Lemma connect_run state ownProps :
  connect state ownProps =
  MkEff (match Router.documentId (Router.params (Router.match_ ownProps)) with
         | Some i => [Index (Some i)]
         | None => []
         end)
        (Some (connected state ownProps)).
Proof.
  unfold connect, connected. rewrite mapStateToProps_run.
  by destruct (Router.documentId _).
Qed.

Lemma connect_quiet state ownProps :
  dispatches (trace (connect state ownProps)) = [].
Proof. rewrite connect_run. by destruct (Router.documentId _). Qed.

Lemma render_undefined props :
  document props = VUndefined → render props = MkEff [] (Some screen_loading).
Proof. intros H. unfold render. by rewrite H. Qed.

Lemma render_object props o :
  document props = VObj o →
  ∃ el, outcome (render props) = Some el ∧
        if truthy (own o "isFetching") then el = screen_loading
        else ∃ children, el = Elem "Screen" [] children.
Proof.
  intros H. unfold render. rewrite H. cbn.
  destruct (truthy (own o "isFetching")); cbn; [by eexists|].
  destruct (truthy (own o "title")), (truthy (own o "parent")); cbn;
    eexists; split; try reflexivity; by eexists.
Qed.

(** The props that [connect] builds never make [render] throw. *)
Lemma render_connected state ownProps :
  ∃ el, outcome (render (connected state ownProps)) = Some el.
Proof.
  destruct (document (connected state ownProps)) as [| |b|n|s|o|name] eqn:Hdoc.
  1: rewrite render_undefined by done; by eexists.
  5: destruct (render_object _ _ Hdoc) as (el & Hel & _); by exists el.
  5: unfold render; rewrite Hdoc; by eexists.
  all: unfold connected, bracket in Hdoc; cbn in Hdoc; repeat case_match; try done.
  all: unfold inherited in *; by repeat case_match.
Qed.

Lemma mount_run state ownProps :
  ∃ el, outcome (render (connected state ownProps)) = Some el ∧
    mount state ownProps =
    MkEff (trace (connect state ownProps)
             ++ trace (render (connected state ownProps))
             ++ trace (componentDidMount (connected state ownProps)))
          (Some (connected state ownProps, el)).
Proof.
  destruct (render_connected state ownProps) as [el Hel]. exists el.
  split; [done|]. unfold mount. rewrite connect_run.
  unfold mbind, Eff_bind, eff_bind. cbn. by rewrite Hel.
Qed.

Lemma update_run prevProps state ownProps :
  ∃ el, outcome (render (connected state ownProps)) = Some el ∧
    update prevProps state ownProps =
    MkEff (trace (connect state ownProps)
             ++ trace (render (connected state ownProps))
             ++ trace (componentDidUpdate (connected state ownProps) prevProps))
          (Some (connected state ownProps, el)).
Proof.
  destruct (render_connected state ownProps) as [el Hel]. exists el.
  split; [done|]. unfold update. rewrite connect_run.
  unfold mbind, Eff_bind, eff_bind. cbn. rewrite Hel. cbn.
  rewrite componentDidUpdate_outcome. cbn. by rewrite app_nil_r.
Qed.

Lemma render_quiet props : dispatches (trace (render props)) = [].
Proof. by destruct (only_reads_quiet _ (render_only_reads props)). Qed.

Lemma mount_dispatches state ownProps :
  dispatches (trace (mount state ownProps))
  = [FetchDocument (Router.documentId (Router.params (Router.match_ ownProps)))].
Proof.
  destruct (mount_run state ownProps) as (el & _ & ->). cbn [trace].
  by rewrite !dispatches_app, connect_quiet, render_quiet.
Qed.

Lemma update_dispatches prevProps state ownProps :
  dispatches (trace (update prevProps state ownProps))
  = if decide (Router.documentId (Router.params (Router.match_ ownProps))
               = documentId prevProps)
    then []
    else [FetchDocument (Router.documentId (Router.params (Router.match_ ownProps)))].
Proof.
  destruct (update_run prevProps state ownProps) as (el & _ & ->). cbn [trace].
  rewrite !dispatches_app, connect_quiet, render_quiet, componentDidUpdate_trace.
  cbn. by case_decide.
Qed.

Lemma update_props prevProps state ownProps r :
  outcome (update prevProps state ownProps) = Some r →
  documentId (fst r) = Router.documentId (Router.params (Router.match_ ownProps)).
Proof.
  destruct (update_run prevProps state ownProps) as (el & _ & ->).
  by intros [= <-].
Qed.

End document_screen.

Section document_screen_claims.
Import DocumentScreen.

(** C10: [componentDidUpdate] never dispatches [fetchDocument] when the
    current [documentId] equals the previous one: along any run of updates
    (of the state or of the router props) in which the id stays what it was,
    and whatever the store holds, the updates dispatch no action. *)
Theorem updates_unchanged_id_no_fetch prevProps changes :
  Forall (λ c, Router.documentId (Router.params (Router.match_ (snd c)))
               = documentId prevProps) changes →
  dispatches (trace (updates prevProps changes)) = []
  ∧ ∀ props, documentId props = documentId prevProps →
             trace (componentDidUpdate props prevProps) = [].
Proof.
  intros Hsame. split.
  - revert prevProps Hsame.
    induction changes as [|[state ownProps] rest IH]; intros prevProps Hsame; [done|].
    apply Forall_cons in Hsame as [Hhd Htl]. cbn in Hhd. cbn [updates].
    rewrite trace_bind, dispatches_app, update_dispatches, decide_True by done. cbn.
    destruct (outcome (update prevProps state ownProps)) as [r|] eqn:Hr; [|done].
    apply IH. apply update_props in Hr.
    eapply Forall_impl; [exact Htl|]. cbn. intros c Hc. congruence.
  - intros props Hid. rewrite componentDidUpdate_trace. by rewrite decide_True.
Qed.

Lemma updates_unchanged_id_no_fetch_witness :
  let changes :=
    [(at_doc_1 (Some [("isFetching", VBool true)]),
      route (Some "doc-1") {| Router.hash := EmptyString |});
     (at_doc_1 (Some [("id", VStr "doc-1"); ("title", VStr "A")]),
      route (Some "doc-1") {| Router.hash := "#page=2" |})] in
  Forall (λ c, Router.documentId (Router.params (Router.match_ (snd c)))
               = documentId props_doc_1) changes
  ∧ dispatches (trace (updates props_doc_1 changes)) = [].
Proof.
  intros changes.
  assert (Hsame : Forall (λ c, Router.documentId (Router.params (Router.match_ (snd c)))
                               = documentId props_doc_1) changes)
    by (repeat constructor).
  split; [exact Hsame|].
  exact (proj1 (updates_unchanged_id_no_fetch props_doc_1 changes Hsame)).
Defined.

(** C7: the view dispatches [fetchDocument] for its id on mount, and on
    update exactly when the id differs from the previous one; rendering and
    the state-to-props mapping dispatch nothing.  [state.entities] is
    indexed by the state-to-props mapping only (with the id, when there is
    one): no lifecycle method and no render touches it. *)
Theorem fetch_on_mount_and_on_id_change props prevProps state ownProps :
  dispatches (trace (componentDidMount props)) = [FetchDocument (documentId props)]
  ∧ dispatches (trace (componentDidUpdate props prevProps)) =
      (if decide (documentId props = documentId prevProps) then []
       else [FetchDocument (documentId props)])
  ∧ dispatches (trace (render props)) = []
  ∧ dispatches (trace (mapStateToProps state ownProps)) = []
  ∧ indexed (trace (componentDidMount props)) = []
  ∧ indexed (trace (componentDidUpdate props prevProps)) = []
  ∧ indexed (trace (render props)) = []
  ∧ indexed (trace (mapStateToProps state ownProps)) =
      match Router.documentId (Router.params (Router.match_ ownProps)) with
      | Some i => [Some i]
      | None => []
      end.
Proof.
  destruct (only_reads_quiet _ (render_only_reads props)) as [Hd Hi].
  rewrite componentDidMount_trace, componentDidUpdate_trace, mapStateToProps_run.
  repeat split; try done.
  - by case_decide.
  - by destruct (Router.documentId _).
  - by case_decide.
  - by destruct (Router.documentId _).
Qed.

(** C8: when the route parameter [documentId] is undefined,
    [mapStateToProps] returns [document = undefined] and does not index
    [state.entities] at all, so not with an undefined key either. *)
Theorem mapStateToProps_undefined_id state ownProps :
  Router.documentId (Router.params (Router.match_ ownProps)) = None →
  outcome (mapStateToProps state ownProps)
  = Some {| mapped_documentId := None; mapped_document := VUndefined |}
  ∧ indexed (trace (mapStateToProps state ownProps)) = [].
Proof. intros Hid. by rewrite mapStateToProps_run, Hid. Qed.

(** The guard matters: an unguarded [state.entities[undefined]] reads the
    property ["undefined"], which a store may well hold. *)
Lemma unguarded_index_reads_undefined_key :
  outcome (index {[ "undefined" := [("isFetching", VBool true)] ]} None)
  = Some (VObj [("isFetching", VBool true)]).
Proof. reflexivity. Qed.

Lemma mapStateToProps_undefined_id_witness :
  let state := {| entities := {[ "undefined" := [("isFetching", VBool true)] ]} |} in
  let ownProps := route None {| Router.hash := EmptyString |} in
  Router.documentId (Router.params (Router.match_ ownProps)) = None
  ∧ outcome (mapStateToProps state ownProps)
    = Some {| mapped_documentId := None; mapped_document := VUndefined |}
  ∧ indexed (trace (mapStateToProps state ownProps)) = [].
Proof.
  intros state ownProps. split; [reflexivity|].
  apply (mapStateToProps_undefined_id state ownProps). reflexivity.
Defined.

(** What [render] does with one of the runtime's own objects: it has none
    of the properties read, so it is rendered as a document without title,
    collection or parent. *)
Lemma render_native props name :
  document props = VNative name →
  outcome (render props)
  = Some (Elem "Screen" []
            [Elem "Helmet" [] [Elem "title" [] [Expr VUndefined]];
             Elem "Breadcrumbs" [("collection", AVal VUndefined)]
               [Expr VUndefined; Elem "li" [] [entity_link (VNative name)]];
             Elem "DualPane" []
               [Elem "DocumentInfo" [("document", AVal (VNative name))] [];
                Elem "DocumentContent"
                  [("document", AVal (VNative name));
                   ("fragId", AVal (VStr (Router.hash (location props))))] []]]).
Proof. intros Hdoc. unfold render. by rewrite Hdoc. Qed.

(** C6 fails on an id that names a member of [Object.prototype]: with
    nothing stored at all, the entry for ["__proto__"] is absent, yet
    [state.entities["__proto__"]] is [Object.prototype], which is not
    [undefined] and has no [isFetching], and the mounted view renders the
    document screen for it instead of the loading state. *)
Theorem mount_inherited_key_not_loading :
  let state := {| entities := ∅ |} in
  let r := mount state (route (Some "__proto__") {| Router.hash := EmptyString |}) in
  absent_or_fetching (entities state !! "__proto__")
  ∧ ∃ props children,
      outcome r = Some (props, Elem "Screen" [] children)
      ∧ document props = VNative "Object.prototype"
      ∧ Elem "Screen" [] children ≠ screen_loading.
Proof.
  intros state r. split; [by left|].
  eexists _, _. split; [reflexivity|]. split; [reflexivity|]. discriminate.
Qed.

End document_screen_claims.

(** ** CollectionCard *)

Section collection_card_claims.
Import CollectionCard.

(** The guard of [render]: [!collection || !collection.id]. *)
Lemma render_guard props :
  let c := collection props in
  (truthy c = false ∨ ∃ v, member c "id" = Some v ∧ truthy v = false) →
  render props =
  MkEff (if truthy c then [Member "collection" "id"] else [])
        (Some (Elem "span" [] [])).
Proof.
  intros c H. unfold render. fold c.
  destruct (truthy c) eqn:Hc; cbn; [|done].
  destruct H as [[=]|(v & Hv & Hfalsy)].
  unfold mbind, Eff_bind, eff_bind. cbn. rewrite Hv. cbn. by rewrite Hfalsy.
Qed.

(** C9: when the [collection] prop is falsy, or its [id] is falsy,
    [CollectionCard.render] returns an empty [span]; it has read [id] of a
    truthy collection and nothing else, and has read nothing of a falsy
    one. *)
Theorem render_empty_span props :
  (truthy (collection props) = false
   ∨ ∃ v, member (collection props) "id" = Some v ∧ truthy v = false) →
  outcome (render props) = Some (Elem "span" [] [])
  ∧ trace (render props)
    = (if truthy (collection props) then [Member "collection" "id"] else [])
  ∧ ∀ f, f ∈ fields_read "collection" (trace (render props)) → f = "id".
Proof.
  intros H. rewrite (render_guard props H). cbn.
  repeat split.
  intros f. destruct (truthy (collection props)); cbn.
  - by intros ->%list_elem_of_singleton.
  - by intros ?%elem_of_nil.
Qed.

Lemma render_empty_span_witness :
  let props := {| collection := VObj [("id", VNum 0); ("summary", VStr "papers")] |} in
  (truthy (collection props) = false
   ∨ ∃ v, member (collection props) "id" = Some v ∧ truthy v = false)
  ∧ outcome (render props) = Some (Elem "span" [] [])
  ∧ trace (render props) = [Member "collection" "id"].
Proof.
  intros props.
  assert (H : truthy (collection props) = false
              ∨ ∃ v, member (collection props) "id" = Some v ∧ truthy v = false)
    by (right; exists (VNum 0); split; reflexivity).
  split; [exact H|].
  destruct (render_empty_span props H) as (Hout & Htrace & _).
  split; [exact Hout | exact Htrace].
Defined.

(** A collection with an id is rendered as a card, and that reads more of
    it. *)
Example render_card_reads :
  fields_read "collection"
    (trace (render {| collection := VObj [("id", VNum 7); ("summary", VStr "papers")] |}))
  = ["id"; "count"; "summary"; "summary"; "summary"; "updated_at"].
Proof. reflexivity. Qed.

End collection_card_claims.

(** ** The entity store *)

Section entity_store_invariant.
Import EntityStore.

Lemma consistent_empty : consistent empty.
Proof.
  split; cbn.
  - constructor.
  - intros i op. rewrite lookup_empty. split; [done|by intros [?%elem_of_nil _]].
Qed.

Lemma out_is_fetching st op :
  consistent st → op ∈ network st → records st !! target op = Some (InFlight op).
Proof. intros [_ Hout] Hop. by apply Hout. Qed.

Lemma consistent_fetch i st : consistent st → consistent (snd (fetch i st)).
Proof.
  intros Hst. pose proof Hst as [Hnodup Hout]. unfold fetch.
  destruct (records st !! i) as [[op|p|e]|] eqn:Hi; cbn; try done.
  all: assert (Hfresh : i ∉ target <$> network st)
    by (intros (op & -> & Hop)%list_elem_of_fmap;
        apply (out_is_fetching _ _ Hst) in Hop; congruence).
  all: split; cbn; [by apply NoDup_cons|].
  all: intros j op; rewrite elem_of_cons.
  all: destruct (decide (i = j)) as [<-|Hne];
    [rewrite lookup_insert_eq | rewrite lookup_insert_ne, Hout by done].
  all: try (split; [by intros [= <-]; split; [left|] |]).
  all: try (intros [[->|Hop] Htarget]; [done|];
            exfalso; apply Hfresh; rewrite <- Htarget; by apply list_elem_of_fmap_2).
  all: split; [intros [? ?]; split; [by right|done] |].
  all: intros [[->|?] ?]; [done|by split].
Qed.

Lemma consistent_complete op net st st' :
  consistent st → complete op net st = Some st' → consistent st'.
Proof.
  intros Hst. pose proof Hst as [Hnodup Hout]. unfold complete.
  case_decide as Hop; [|done]. intros [= <-]. split; cbn.
  - eapply sublist_NoDup; [exact Hnodup|].
    apply fmap_sublist, sublist_filter.
  - intros j op'. rewrite list_elem_of_filter.
    apply (out_is_fetching _ _ Hst) in Hop.
    destruct (decide (target op = j)) as [<-|Hne].
    + rewrite lookup_insert_eq. split.
      * by destruct (endpoint net (target op)).
      * intros [[Hne Hop'] Htarget]. exfalso. apply Hne.
        assert (records st !! target op = Some (InFlight op')) by by apply Hout.
        congruence.
    + rewrite lookup_insert_ne, Hout by done. split.
      * intros [? ?]. repeat split; [congruence|done|done].
      * by intros [[_ ?] ?].
Qed.

Lemma consistent_step st ev st' :
  consistent st → step st ev = Some st' → consistent st'.
Proof.
  destruct ev as [i|op net]; cbn.
  - intros ? [= <-]. by apply consistent_fetch.
  - intros ??. by eapply consistent_complete.
Qed.

Lemma consistent_run evs st st' :
  consistent st → run evs st = Some st' → consistent st'.
Proof.
  revert st. induction evs as [|ev evs IH]; cbn; intros st Hst.
  - by intros [= <-].
  - destruct (step st ev) as [st1|] eqn:Hstep; [|done].
    apply IH. by eapply consistent_step.
Qed.

End entity_store_invariant.

Section entity_store_claims.
Import EntityStore.

Lemma reachable_consistent evs st : run evs empty = Some st → consistent st.
Proof. apply consistent_run, consistent_empty. Qed.

Lemma get_Fetching st i :
  get st i = Fetching ↔ ∃ op, records st !! i = Some (InFlight op).
Proof.
  unfold get. destruct (records st !! i) as [[op|p|e]|]; cbn;
    split; try done; try (by intros [? [=]]). by exists op.
Qed.

Lemma get_Loaded st i p : get st i = Loaded p ↔ records st !! i = Some (Have p).
Proof.
  unfold get. destruct (records st !! i) as [[op|q|e]|]; cbn;
    split; try done; by intros [= ->].
Qed.

Lemma get_Failed st i e : get st i = Failed e ↔ records st !! i = Some (Err e).
Proof.
  unfold get. destruct (records st !! i) as [[op|q|e']|]; cbn;
    split; try done; by intros [= ->].
Qed.

Lemma get_NotRequested st i : get st i = NotRequested ↔ records st !! i = None.
Proof.
  unfold get. by destruct (records st !! i) as [[op|q|e']|].
Qed.

(** With targets that are pairwise different, the requests for one id
    are none or one. *)
Lemma in_flight_at_most_one st i :
  NoDup (target <$> network st) →
  in_flight i st = [] ∨ ∃ op, in_flight i st = [op].
Proof.
  unfold in_flight. induction (network st) as [|a l IH]; [by left|].
  rewrite fmap_cons, filter_cons.
  intros [Hnotin Hnodup]%NoDup_cons.
  case_decide as Ha; [|by apply IH].
  right. exists a. f_equal.
  destruct (filter _ l) as [|b l'] eqn:Hfilter; [done|].
  exfalso. apply Hnotin.
  assert (Hb : b ∈ filter (λ op, target op = i) l) by (rewrite Hfilter; left).
  apply list_elem_of_filter in Hb as [Hb ?].
  rewrite Ha, <- Hb. by apply list_elem_of_fmap_2.
Qed.

Lemma in_flight_fetching st i op :
  consistent st → records st !! i = Some (InFlight op) → in_flight i st = [op].
Proof.
  intros [Hnodup Hout] [Hop Htarget]%Hout.
  assert (Hin : op ∈ in_flight i st) by by apply list_elem_of_filter.
  destruct (in_flight_at_most_one st i Hnodup) as [Hnil|[op' Hone]];
    rewrite ?Hnil, ?Hone in *.
  - by apply elem_of_nil in Hin.
  - by apply list_elem_of_singleton in Hin as ->.
Qed.

(** A second [fetch] right after a first changes nothing and returns what
    the first returned. *)
Lemma fetch_again i st :
  fetch i (snd (fetch i st)) = (fst (fetch i st), snd (fetch i st)).
Proof.
  unfold fetch at 2 3 4.
  destruct (records st !! i) as [[op|p|e]|] eqn:Hi; cbn.
  1,2: unfold fetch; by rewrite Hi.
  all: unfold fetch; cbn; by rewrite lookup_insert_eq.
Qed.

Lemma complete_resolves op net st st' :
  complete op net st = Some st' →
  eventual (Pending op) st' = Some (get st' (target op))
  ∧ get st' (target op) = state_of (Some (settle (endpoint net (target op)))).
Proof.
  unfold complete. case_decide; [|done]. intros [= <-].
  unfold get. cbn. by rewrite !lookup_insert_eq.
Qed.

Lemma deliver_mount state (i : string) loc st :
  deliver_all (dispatches (trace (DocumentScreen.mount state (route (Some i) loc)))) st
  = Some ([fst (fetch i st)], snd (fetch i st)).
Proof. rewrite mount_dispatches. cbn. by destruct (fetch i st). Qed.

(** A step leaves alone the records it is not about: a [fetch] of another
    id, and a reply to a request for another id. *)
Lemma step_other st ev st' i :
  consistent st → step st ev = Some st' →
  (∀ op, records st !! i ≠ Some (InFlight op)) →
  ev ≠ CallFetch i →
  records st' !! i = records st !! i.
Proof.
  intros Hst Hstep Hidle Hev. destruct ev as [j|op net]; cbn in Hstep.
  - injection Hstep as <-. unfold fetch.
    assert (j ≠ i) by congruence.
    destruct (records st !! j) as [[op|p|e]|]; cbn; try done;
      by rewrite lookup_insert_ne.
  - unfold complete in Hstep. case_decide as Hop; [|done].
    injection Hstep as <-. cbn.
    apply (out_is_fetching _ _ Hst) in Hop.
    rewrite lookup_insert_ne; [done|]. intros <-. by eapply Hidle.
Qed.

Lemma loaded_step st ev st' i p :
  consistent st → step st ev = Some st' →
  get st i = Loaded p → get st' i = Loaded p.
Proof.
  intros Hst Hstep Hp%get_Loaded. apply get_Loaded.
  assert (Hidle : ∀ op, records st !! i ≠ Some (InFlight op)) by congruence.
  destruct ev as [j|op net].
  - destruct (decide (j = i)) as [->|Hne].
    + cbn in Hstep. injection Hstep as <-. unfold fetch. by rewrite Hp.
    + rewrite <- Hp. eapply step_other; [done..|congruence].
  - rewrite <- Hp. by eapply step_other.
Qed.

Lemma loaded_run later st st' i p :
  consistent st → run later st = Some st' →
  get st i = Loaded p → get st' i = Loaded p.
Proof.
  revert st. induction later as [|ev later IH]; cbn; intros st Hst.
  - by intros [= <-].
  - destruct (step st ev) as [st1|] eqn:Hstep; [|done].
    intros Hrun Hp. eapply IH; [by eapply consistent_step|done|].
    by eapply loaded_step.
Qed.

Lemma unseen_run evs st st' i :
  consistent st → run evs st = Some st' →
  i ∉ fetched_ids evs → records st !! i = None → records st' !! i = None.
Proof.
  revert st. induction evs as [|ev evs IH]; cbn; intros st Hst.
  - by intros [= <-].
  - destruct (step st ev) as [st1|] eqn:Hstep; [|done].
    intros Hrun Hnot Hi. eapply IH; [by eapply consistent_step|done| |].
    + destruct ev; cbn in Hnot; [|done]. by apply not_elem_of_cons in Hnot as [_ ?].
    + rewrite <- Hi. eapply step_other; [done..|congruence|].
      intros ->. cbn in Hnot. apply Hnot. by left.
Qed.

(** C1: in every store reached from the empty one, the requests that
    are out for an id are at most one.  While the entry of an id is
    [Fetching], a [fetch] of it, called directly or dispatched by the view
    (as it does when it mounts), leaves the store as it is (no call is logged, no request
    goes out) and returns the one operation that is out for the id; whoever
    holds that operation is given, when it completes, the state the store
    then has for the id.  A [fetch] right after a [fetch] never changes the
    store and returns what the first one returned. *)
Theorem one_fetch_in_flight_per_id evs st i :
  run evs empty = Some st →
  (length (in_flight i st) ≤ 1)%nat
  ∧ (get st i = Fetching →
     ∃ op, in_flight i st = [op]
           ∧ fetch i st = (Pending op, st)
           ∧ deliver (FetchDocument (Some i)) st = Some (Pending op, st)
           ∧ (∀ state loc,
                deliver_all
                  (dispatches (trace (DocumentScreen.mount state (route (Some i) loc))))
                  st
                = Some ([Pending op], st))
           ∧ ∀ net st', complete op net st = Some st' →
                        eventual (Pending op) st' = Some (get st' i))
  ∧ fetch i (snd (fetch i st)) = (fst (fetch i st), snd (fetch i st)).
Proof.
  intros Hst%reachable_consistent. split; [|split].
  - destruct (in_flight_at_most_one st i (one_per_id _ Hst)) as [->|[op ->]];
      cbn; lia.
  - intros [op Hop]%get_Fetching. exists op.
    assert (Hfetch : fetch i st = (Pending op, st))
      by (unfold fetch; by rewrite Hop).
    split; [by apply in_flight_fetching|]. split; [done|].
    split; [cbn; by rewrite Hfetch|]. split.
    + intros state loc. by rewrite deliver_mount, Hfetch.
    + intros net st' Hdone.
      apply (fetching_iff_out _ Hst) in Hop as [_ <-].
      by apply complete_resolves in Hdone as [? _].
  - apply fetch_again.
Qed.

(** C2: in every store reached from the empty one, a [fetch] of an id
    whose entry is [Loaded] returns that entry at once and leaves the store
    as it is, so that no network call is issued, also when the view
    dispatches it as it mounts; and whatever happens later, fetches and
    replies alike, the entry stays the [Loaded] one it is. *)
Theorem loaded_fetch_immediate evs st i p :
  run evs empty = Some st →
  get st i = Loaded p →
  fetch i st = (Settled (Loaded p), st)
  ∧ deliver (FetchDocument (Some i)) st = Some (Settled (Loaded p), st)
  ∧ (∀ state loc,
       deliver_all
         (dispatches (trace (DocumentScreen.mount state (route (Some i) loc)))) st
       = Some ([Settled (Loaded p)], st))
  ∧ ∀ later st', run later st = Some st' →
                 get st' i = Loaded p ∧ fetch i st' = (Settled (Loaded p), st').
Proof.
  intros Hst%reachable_consistent Hp.
  assert (Himmediate : ∀ s, get s i = Loaded p → fetch i s = (Settled (Loaded p), s))
    by (intros s Hs%get_Loaded; unfold fetch; by rewrite Hs).
  split; [by apply Himmediate|].
  split; [cbn; by rewrite Himmediate|]. split.
  - intros state loc. by rewrite deliver_mount, Himmediate.
  - intros later st' Hrun.
    assert (get st' i = Loaded p) by by eapply loaded_run.
    split; [done|by apply Himmediate].
Qed.

(** For an id that names no member of [Object.prototype], the store and
    the mapping agree: never fetched, it has no record, [get] returns
    [NotRequested] for it, and, whatever objects the reducer keeps for the
    records, [mapStateToProps] reads [state.entities[id]] as [undefined]. *)
Lemma never_fetched_own_key_undefined evs st i :
  run evs empty = Some st →
  i ∉ fetched_ids evs →
  inherited i = None →
  get st i = NotRequested
  ∧ ∀ layout loc,
      outcome (DocumentScreen.mapStateToProps (redux layout st) (route (Some i) loc))
      = Some {| DocumentScreen.mapped_documentId := Some i;
                DocumentScreen.mapped_document := VUndefined |}.
Proof.
  intros Hrun Hnot Hown.
  assert (Hi : records st !! i = None)
    by (eapply unseen_run; [apply consistent_empty|done|done|done]).
  split; [by apply get_NotRequested|].
  intros layout loc. rewrite mapStateToProps_run. cbn. unfold bracket.
  by rewrite lookup_fmap, Hi, Hown.
Qed.

(** C3 fails on an id that names a member of [Object.prototype]: in the
    store nothing was ever fetched in, ["constructor"] has no record and
    [get] returns [NotRequested] for it, yet [mapStateToProps] reads
    [state.entities["constructor"]] as [Object], not as [undefined]. *)
Theorem never_fetched_inherited_key_defined :
  run [] empty = Some empty
  ∧ ("constructor" ∉ fetched_ids [])
  ∧ get empty "constructor" = NotRequested
  ∧ ∀ layout loc,
      outcome (DocumentScreen.mapStateToProps (redux layout empty)
                 (route (Some "constructor") loc))
      = Some {| DocumentScreen.mapped_documentId := Some "constructor";
                DocumentScreen.mapped_document := VNative "Object" |}.
Proof.
  split; [done|]. split; [by intros ?%elem_of_nil|]. split; [done|].
  intros layout loc. rewrite mapStateToProps_run. cbn. unfold bracket.
  by rewrite lookup_fmap, lookup_empty.
Qed.

(** C4: a [fetch] of an id whose entry is [Failed] does not stop at the
    failure: it logs one new network call for the id, sends the request out
    and moves the entry to [Fetching]; the store stays consistent, with
    that request the only one out for the id. *)
Theorem failed_fetch_retries st i e :
  get st i = Failed e →
  ∃ op st',
    fetch i st = (Pending op, st')
    ∧ calls st' = calls st ++ [i]
    ∧ network st' = op :: network st
    ∧ target op = i
    ∧ get st' i = Fetching
    ∧ (consistent st → consistent st' ∧ in_flight i st' = [op]).
Proof.
  intros He%get_Failed. unfold fetch. rewrite He.
  eexists _, _. split; [done|]. cbn. do 3 (split; [done|]). split.
  - unfold get. cbn. by rewrite lookup_insert_eq.
  - intros Hst. pose proof (consistent_fetch i st Hst) as Hst'.
    unfold fetch in Hst'. rewrite He in Hst'. cbn in Hst'. split; [done|].
    apply in_flight_fetching; [done|]. cbn. by rewrite lookup_insert_eq.
Qed.

(** C5: when a [fetch] of an id, made in a store reached from the empty
    one, is answered with a payload, then, whatever happened in between,
    [get] returns [Loaded] of that payload, the payload's [id] is the
    requested id, and the caller of the [fetch] is given the same. *)
Theorem successful_fetch_loaded evs st i op st1 between st2 net p st3 :
  run evs empty = Some st →
  fetch i st = (Pending op, st1) →
  run between st1 = Some st2 →
  complete op net st2 = Some st3 →
  endpoint net i = inl p →
  get st3 i = Loaded p
  ∧ id p = i
  ∧ eventual (Pending op) st3 = Some (Loaded p).
Proof.
  intros Hst%reachable_consistent Hfetch Hbetween Hdone Hreply.
  assert (Htarget : target op = i).
  { pose proof (consistent_fetch i st Hst) as Hst1.
    unfold fetch in Hfetch, Hst1.
    destruct (records st !! i) as [[op'|q|e]|] eqn:Hi; simplify_eq; try done.
    by apply (fetching_iff_out _ Hst) in Hi as [_ ?]. }
  apply complete_resolves in Hdone as [Hgiven Hget].
  rewrite Htarget in *. rewrite Hreply in Hget. cbn in Hget.
  rewrite Hget in Hgiven. split; [done|]. split; [|done].
  unfold endpoint in Hreply. destruct net as [backend| |]; [|done..].
  destruct (find _ backend) as [q|] eqn:Hfind; [|done].
  injection Hreply as ->.
  apply find_some in Hfind as [_ Hid]. by apply String.eqb_eq in Hid.
Qed.

End entity_store_claims.

(** ** The scenarios of the specification, run *)

Section scenarios.
Import EntityStore Samples.

Example scenario_doc_1 : get doc_1_loaded "doc-1" = Loaded doc_1.
Proof. vm_compute. reflexivity. Qed.

Example scenario_doc_2 :
  get doc_2_failed "doc-2" = Failed NotFoundError
  ∧ (λ st, (get st "doc-2", calls st))
      <$> run [CallFetch "doc-2";
               Reply {| serial := 1; target := "doc-2" |} (Up [doc_1; doc_2])]
              doc_2_failed
    = Some (Loaded doc_2, ["doc-2"; "doc-2"]).
Proof. split; vm_compute; reflexivity. Qed.

Example scenario_doc_3 :
  let first := fetch "doc-3" empty in
  let second := fetch "doc-3" (snd first) in
  fst first = fst second
  ∧ calls (snd second) = ["doc-3"]
  ∧ network (snd second) = [first_call "doc-3"].
Proof. repeat split. Qed.

Lemma one_fetch_in_flight_per_id_witness :
  run [CallFetch "doc-3"] empty = Some doc_3_out
  ∧ get doc_3_out "doc-3" = Fetching
  ∧ (length (in_flight "doc-3" doc_3_out) ≤ 1)%nat
  ∧ ∃ op, in_flight "doc-3" doc_3_out = [op]
          ∧ fetch "doc-3" doc_3_out = (Pending op, doc_3_out).
Proof.
  assert (Hrun : run [CallFetch "doc-3"] empty = Some doc_3_out) by reflexivity.
  assert (Hget : get doc_3_out "doc-3" = Fetching) by (vm_compute; reflexivity).
  destruct (one_fetch_in_flight_per_id _ _ "doc-3" Hrun) as (Hone & Hfetching & _).
  destruct (Hfetching Hget) as (op & Hin & Hfetch & _).
  split; [exact Hrun|]. split; [exact Hget|]. split; [exact Hone|].
  exists op. split; [exact Hin | exact Hfetch].
Defined.

Lemma loaded_fetch_immediate_witness :
  run [CallFetch "doc-1"; Reply (first_call "doc-1") (Up [doc_1])] empty
  = Some doc_1_loaded
  ∧ get doc_1_loaded "doc-1" = Loaded doc_1
  ∧ fetch "doc-1" doc_1_loaded = (Settled (Loaded doc_1), doc_1_loaded).
Proof.
  assert (Hrun : run [CallFetch "doc-1"; Reply (first_call "doc-1") (Up [doc_1])] empty
                 = Some doc_1_loaded) by (vm_compute; reflexivity).
  assert (Hget : get doc_1_loaded "doc-1" = Loaded doc_1) by (vm_compute; reflexivity).
  split; [exact Hrun|]. split; [exact Hget|].
  exact (proj1 (loaded_fetch_immediate _ _ _ _ Hrun Hget)).
Defined.

Lemma failed_fetch_retries_witness :
  get doc_2_failed "doc-2" = Failed NotFoundError
  ∧ ∃ op st', fetch "doc-2" doc_2_failed = (Pending op, st')
              ∧ calls st' = calls doc_2_failed ++ ["doc-2"]
              ∧ get st' "doc-2" = Fetching.
Proof.
  assert (Hget : get doc_2_failed "doc-2" = Failed NotFoundError)
    by (vm_compute; reflexivity).
  split; [exact Hget|].
  destruct (failed_fetch_retries _ _ _ Hget)
    as (op & st' & Hfetch & Hcalls & _ & _ & Hfetching & _).
  exists op, st'. split; [exact Hfetch|]. split; [exact Hcalls | exact Hfetching].
Defined.

Lemma successful_fetch_loaded_witness :
  run [] empty = Some empty
  ∧ fetch "doc-1" empty = (Pending (first_call "doc-1"), doc_1_out)
  ∧ run [CallFetch "doc-2"; CallFetch "doc-1"] doc_1_out = Some doc_1_doc_2_out
  ∧ complete (first_call "doc-1") (Up [doc_2; doc_1]) doc_1_doc_2_out
    = Some doc_1_answered
  ∧ endpoint (Up [doc_2; doc_1]) "doc-1" = inl doc_1
  ∧ get doc_1_answered "doc-1" = Loaded doc_1
  ∧ id doc_1 = "doc-1".
Proof.
  assert (H1 : run [] empty = Some empty) by reflexivity.
  assert (H2 : fetch "doc-1" empty = (Pending (first_call "doc-1"), doc_1_out))
    by reflexivity.
  assert (H3 : run [CallFetch "doc-2"; CallFetch "doc-1"] doc_1_out
               = Some doc_1_doc_2_out) by (vm_compute; reflexivity).
  assert (H4 : complete (first_call "doc-1") (Up [doc_2; doc_1]) doc_1_doc_2_out
               = Some doc_1_answered) by (vm_compute; reflexivity).
  assert (H5 : endpoint (Up [doc_2; doc_1]) "doc-1" = inl doc_1) by reflexivity.
  destruct (successful_fetch_loaded _ _ _ _ _ _ _ _ _ _ H1 H2 H3 H4 H5)
    as (Hget & Hid & _).
  repeat (split; [assumption|]). exact Hid.
Defined.

End scenarios.

(** * Further properties of the components *)

(** ** DocumentScreen.render *)

Section document_screen_render.
Import DocumentScreen.

(** What [render] does with a document that is an object and is not being
    fetched. *)
Lemma render_document props o :
  document props = VObj o →
  truthy (own o "isFetching") = false →
  render props =
  MkEff ([Member "document" "isFetching"; Member "document" "title"]
           ++ (if truthy (own o "title") then [] else [Member "document" "file_name"])
           ++ [Member "document" "collection"; Member "document" "parent"]
           ++ (if truthy (own o "parent") then [Member "document" "parent"] else []))
        (Some (Elem "Screen" []
                 [Elem "Helmet" []
                    [Elem "title" []
                       [Expr (if truthy (own o "title") then own o "title"
                              else own o "file_name")]];
                  Elem "Breadcrumbs" [("collection", AVal (own o "collection"))]
                    [if truthy (own o "parent")
                     then Elem "li" [] [entity_link (own o "parent")]
                     else Expr (own o "parent");
                     Elem "li" [] [entity_link (VObj o)]];
                  Elem "DualPane" []
                    [Elem "DocumentInfo" [("document", AVal (VObj o))] [];
                     Elem "DocumentContent"
                       [("document", AVal (VObj o));
                        ("fragId", AVal (VStr (Router.hash (location props))))] []]])).
Proof.
  intros Hdoc Hf. unfold render. rewrite Hdoc. cbn.
  unfold mbind, Eff_bind, eff_bind. cbn. rewrite Hf. cbn.
  by destruct (truthy (own o "title")), (truthy (own o "parent")).
Qed.

(** X1: [render] throws exactly when the [document] prop is [null]
    ([undefined] is the loading case, and any other value has properties to
    read); it throws at its first read, [document.isFetching], having done
    nothing else. *)
Theorem render_throws_iff_null props :
  (outcome (render props) = None ↔ document props = VNull)
  ∧ (document props = VNull →
     trace (render props) = [Member "document" "isFetching"]).
Proof.
  split.
  - destruct (document props) as [| |b|n|s|o|name] eqn:Hdoc.
    + rewrite render_undefined by done. done.
    + unfold render. rewrite Hdoc. done.
    + unfold render. rewrite Hdoc. done.
    + unfold render. rewrite Hdoc. done.
    + unfold render. rewrite Hdoc. done.
    + destruct (render_object _ _ Hdoc) as (el & -> & _). done.
    + by rewrite (render_native _ _ Hdoc).
  - intros Hdoc. unfold render. by rewrite Hdoc.
Qed.

(** X2: for a document that is an object and is not being fetched, the
    page title is [document.title] when that is truthy and
    [document.file_name] otherwise. *)
Theorem render_title_or_file_name props o :
  document props = VObj o →
  truthy (own o "isFetching") = false →
  ∃ crumbs panes,
    outcome (render props)
    = Some (Elem "Screen" []
              [Elem "Helmet" []
                 [Elem "title" []
                    [Expr (if truthy (own o "title") then own o "title"
                           else own o "file_name")]];
               crumbs; panes]).
Proof.
  intros Hdoc Hf. rewrite (render_document props o Hdoc Hf). cbn. by eexists _, _.
Qed.

Lemma render_title_or_file_name_witness :
  let o := [("id", VStr "doc-1"); ("file_name", VStr "report.pdf")] in
  let props := {| documentId := Some "doc-1"; document := VObj o;
                  location := {| Router.hash := EmptyString |} |} in
  document props = VObj o
  ∧ truthy (own o "isFetching") = false
  ∧ ∃ crumbs panes,
      outcome (render props)
      = Some (Elem "Screen" []
                [Elem "Helmet" [] [Elem "title" [] [Expr (VStr "report.pdf")]];
                 crumbs; panes]).
Proof.
  intros o props. split; [reflexivity|]. split; [reflexivity|].
  exact (render_title_or_file_name props o eq_refl eq_refl).
Defined.

(** X3: for a document that is an object and is not being fetched, the
    breadcrumbs are given [document.collection]; they start with a link to
    [document.parent] exactly when that is truthy (otherwise the falsy value
    itself stands in its place) and end with the link to the document. *)
Theorem render_breadcrumbs props o :
  document props = VObj o →
  truthy (own o "isFetching") = false →
  ∃ helmet panes,
    outcome (render props)
    = Some (Elem "Screen" []
              [helmet;
               Elem "Breadcrumbs" [("collection", AVal (own o "collection"))]
                 [if truthy (own o "parent")
                  then Elem "li" [] [entity_link (own o "parent")]
                  else Expr (own o "parent");
                  Elem "li" [] [entity_link (VObj o)]];
               panes]).
Proof.
  intros Hdoc Hf. rewrite (render_document props o Hdoc Hf). cbn. by eexists _, _.
Qed.

Lemma render_breadcrumbs_witness :
  let parent := VObj [("id", VStr "folder-9")] in
  let o := [("id", VStr "doc-1"); ("parent", parent)] in
  let props := {| documentId := Some "doc-1"; document := VObj o;
                  location := {| Router.hash := EmptyString |} |} in
  document props = VObj o
  ∧ truthy (own o "isFetching") = false
  ∧ ∃ helmet panes,
      outcome (render props)
      = Some (Elem "Screen" []
                [helmet;
                 Elem "Breadcrumbs" [("collection", AVal VUndefined)]
                   [Elem "li" [] [entity_link parent];
                    Elem "li" [] [entity_link (VObj o)]];
                 panes]).
Proof.
  intros parent o props. split; [reflexivity|]. split; [reflexivity|].
  exact (render_breadcrumbs props o eq_refl eq_refl).
Defined.

(** X4: for a document that is an object and is not being fetched, both
    panes are handed the document itself, and the content pane is handed
    [location.hash] as its [fragId]. *)
Theorem render_panes props o :
  document props = VObj o →
  truthy (own o "isFetching") = false →
  ∃ helmet crumbs,
    outcome (render props)
    = Some (Elem "Screen" []
              [helmet; crumbs;
               Elem "DualPane" []
                 [Elem "DocumentInfo" [("document", AVal (VObj o))] [];
                  Elem "DocumentContent"
                    [("document", AVal (VObj o));
                     ("fragId", AVal (VStr (Router.hash (location props))))] []]]).
Proof.
  intros Hdoc Hf. rewrite (render_document props o Hdoc Hf). cbn. by eexists _, _.
Qed.

Lemma render_panes_witness :
  let o := [("id", VStr "doc-1"); ("title", VStr "A")] in
  let props := {| documentId := Some "doc-1"; document := VObj o;
                  location := {| Router.hash := "#page=2" |} |} in
  document props = VObj o
  ∧ truthy (own o "isFetching") = false
  ∧ ∃ helmet crumbs,
      outcome (render props)
      = Some (Elem "Screen" []
                [helmet; crumbs;
                 Elem "DualPane" []
                   [Elem "DocumentInfo" [("document", AVal (VObj o))] [];
                    Elem "DocumentContent"
                      [("document", AVal (VObj o));
                       ("fragId", AVal (VStr "#page=2"))] []]]).
Proof.
  intros o props. split; [reflexivity|]. split; [reflexivity|].
  exact (render_panes props o eq_refl eq_refl).
Defined.

(** X5: of a document that is an object, [render] reads [isFetching]
    and stops there when it is truthy; otherwise it goes on to read [title],
    [file_name] only when the title is falsy, [collection], and [parent],
    once more when it is truthy: no other property, and nothing of any other
    prop. *)
Theorem render_reads props o :
  document props = VObj o →
  trace (render props)
  = Member "document" <$>
      (if truthy (own o "isFetching") then ["isFetching"]
       else ["isFetching"; "title"]
              ++ (if truthy (own o "title") then [] else ["file_name"])
              ++ ["collection"; "parent"]
              ++ (if truthy (own o "parent") then ["parent"] else [])).
Proof.
  intros Hdoc. destruct (truthy (own o "isFetching")) eqn:Hf.
  - unfold render. rewrite Hdoc. cbn.
    unfold mbind, Eff_bind, eff_bind. cbn. by rewrite Hf.
  - rewrite (render_document props o Hdoc Hf). cbn.
    by destruct (truthy (own o "title")), (truthy (own o "parent")).
Qed.

Lemma render_reads_witness :
  let o := [("id", VStr "doc-1"); ("file_name", VStr "report.pdf")] in
  let props := {| documentId := Some "doc-1"; document := VObj o;
                  location := {| Router.hash := EmptyString |} |} in
  document props = VObj o
  ∧ trace (render props)
    = Member "document" <$> ["isFetching"; "title"; "file_name"; "collection"; "parent"].
Proof.
  intros o props. split; [reflexivity|].
  exact (render_reads props o eq_refl).
Defined.

End document_screen_render.

(** ** The connected DocumentScreen *)

Section document_screen_lifecycle.
Import DocumentScreen.

Lemma update_outcome prevProps state ownProps :
  ∃ el, outcome (update prevProps state ownProps)
        = Some (connected state ownProps, el).
Proof.
  destruct (update_run prevProps state ownProps) as (el & _ & ->). by exists el.
Qed.

(** X6: mounted on a route without a [documentId], the screen never
    looks into [state.entities], shows the loading state, and still
    dispatches [fetchDocument], with an undefined id. *)
Theorem mount_without_id state loc :
  mount state (route None loc)
  = MkEff [Dispatch (FetchDocument None)]
          (Some ({| documentId := None; document := VUndefined; location := loc |},
                 screen_loading)).
Proof. reflexivity. Qed.

(** X7: along any run of updates, whatever the store holds, the screen
    dispatches [fetchDocument] at the updates whose id differs from the id
    just before, for the new id, and at no other update. *)
Theorem updates_dispatch_id_changes prevProps changes :
  dispatches (trace (updates prevProps changes))
  = FetchDocument <$> id_changes (documentId prevProps) (route_ids changes).
Proof.
  revert prevProps.
  induction changes as [|[state ownProps] rest IH]; intros prevProps; [done|].
  cbn [updates route_ids fmap list_fmap id_changes snd].
  rewrite trace_bind, dispatches_app, update_dispatches, fmap_app.
  destruct (update_outcome prevProps state ownProps) as [el ->].
  rewrite IH. cbn [fst]. by case_decide.
Qed.

(** X8: the connected screen depends on the Redux state through the
    entry of its route's id only: two states that have the same entry for
    that id give the same mount and the same updates, in what is rendered
    and in what is done. *)
Theorem connected_screen_local state1 state2 ownProps :
  (∀ i, Router.documentId (Router.params (Router.match_ ownProps)) = Some i →
        entities state1 !! i = entities state2 !! i) →
  mount state1 ownProps = mount state2 ownProps
  ∧ ∀ prevProps, update prevProps state1 ownProps = update prevProps state2 ownProps.
Proof.
  intros Hsame.
  assert (Hconnect : connect state1 ownProps = connect state2 ownProps).
  { rewrite !connect_run. unfold connected, bracket.
    destruct (Router.documentId _) as [i|]; [|done].
    by rewrite (Hsame i eq_refl). }
  unfold mount, update. by rewrite Hconnect.
Qed.

Lemma connected_screen_local_witness :
  let state1 := at_doc_1 (Some [("id", VStr "doc-1")]) in
  let state2 :=
    {| entities := <["doc-2" := [("isFetching", VBool true)]]> (entities state1) |} in
  let ownProps := route (Some "doc-1") {| Router.hash := EmptyString |} in
  (∀ i, Router.documentId (Router.params (Router.match_ ownProps)) = Some i →
        entities state1 !! i = entities state2 !! i)
  ∧ mount state1 ownProps = mount state2 ownProps.
Proof.
  intros state1 state2 ownProps.
  assert (Hsame : ∀ i, Router.documentId (Router.params (Router.match_ ownProps)) = Some i →
                       entities state1 !! i = entities state2 !! i)
    by (intros i [= <-]; vm_compute; reflexivity).
  split; [exact Hsame|].
  exact (proj1 (connected_screen_local state1 state2 ownProps Hsame)).
Defined.


(** An id that [state.entities] has no own entry for, and that still does
    not map to [undefined]. *)
Example mapStateToProps_inherited_defined :
  outcome (mapStateToProps {| entities := ∅ |}
             (route (Some "toString") {| Router.hash := EmptyString |}))
  = Some {| mapped_documentId := Some "toString";
            mapped_document := VNative "Object.prototype.toString" |}.
Proof. reflexivity. Qed.

(** X20: for every store state and every id that names no member of
    [Object.prototype], the view mounted on the route of the id renders the
    loading state exactly when [state.entities] has no entry for the id or
    the entry's [isFetching] is truthy; otherwise it renders the document
    screen of the entry: its title or file name, its collection, parent and
    own link as breadcrumbs, and the two panes with the location's hash.
    The mount dispatches a fetch for the id in either case, and a later
    update at the same state and id renders the same. *)
Theorem mount_loading_iff_entry state (i : string) loc :
  inherited i = None →
  let entry := entities state !! i in
  let r := mount state (route (Some i) loc) in
  ∃ props el,
    outcome r = Some (props, el)
    ∧ (el = screen_loading ↔ absent_or_fetching entry)
    ∧ dispatches (trace r) = [FetchDocument (Some i)]
    ∧ (∀ o, entry = Some o → truthy (own o "isFetching") = false →
            el = Elem "Screen" []
                   [Elem "Helmet" []
                      [Elem "title" []
                         [Expr (if truthy (own o "title") then own o "title"
                                else own o "file_name")]];
                    Elem "Breadcrumbs" [("collection", AVal (own o "collection"))]
                      [if truthy (own o "parent")
                       then Elem "li" [] [entity_link (own o "parent")]
                       else Expr (own o "parent");
                       Elem "li" [] [entity_link (VObj o)]];
                    Elem "DualPane" []
                      [Elem "DocumentInfo" [("document", AVal (VObj o))] [];
                       Elem "DocumentContent"
                         [("document", AVal (VObj o));
                          ("fragId", AVal (VStr (Router.hash loc)))] []]])
    ∧ ∀ prevProps,
        outcome (update prevProps state (route (Some i) loc)) = Some (props, el).
Proof.
  intros Hown entry r. subst r entry.
  destruct (mount_run state (route (Some i) loc)) as (el & Hel & Hmount).
  exists (connected state (route (Some i) loc)), el.
  split; [by rewrite Hmount|].
  assert (Hupdate : ∀ prevProps,
            outcome (update prevProps state (route (Some i) loc))
            = Some (connected state (route (Some i) loc), el)).
  { intros prevProps.
    destruct (update_run prevProps state (route (Some i) loc)) as (el' & Hel' & ->).
    cbn. congruence. }
  split; [|split; [apply mount_dispatches|split; [|exact Hupdate]]].
  - unfold absent_or_fetching, connected, bracket in *. cbn in Hel.
    destruct (entities state !! i) as [o|].
    + destruct (truthy (own o "isFetching")) eqn:Hf.
      * destruct (render_object {| documentId := Some i; document := VObj o;
                                   location := loc |} o eq_refl) as (el' & Hel' & Hshape).
        rewrite Hf in Hshape. rewrite Hel in Hel'. injection Hel' as <-.
        split; [|done]. intros _. right. by exists o.
      * rewrite (render_document {| documentId := Some i; document := VObj o;
                                    location := loc |} o eq_refl Hf) in Hel.
        injection Hel as <-. split; [unfold screen_loading; discriminate|].
        intros [[=]|(o' & [= <-] & Hf')]. congruence.
    + rewrite Hown in Hel. rewrite render_undefined in Hel by done.
      injection Hel as <-. split; [by left|done].
  - intros o Hentry Hf. unfold connected, bracket in Hel. cbn in Hel.
    rewrite Hentry in Hel.
    rewrite (render_document {| documentId := Some i; document := VObj o;
                                location := loc |} o eq_refl Hf) in Hel.
    by injection Hel as <-.
Qed.

Lemma mount_loading_iff_entry_witness :
  let o := [("id", VStr "doc-1"); ("file_name", VStr "report.pdf")] in
  let state := at_doc_1 (Some o) in
  let loc := {| Router.hash := "#page=2" |} in
  inherited "doc-1" = None
  ∧ ∃ props el,
      outcome (mount state (route (Some "doc-1") loc)) = Some (props, el)
      ∧ (el = screen_loading ↔ absent_or_fetching (entities state !! "doc-1"))
      ∧ dispatches (trace (mount state (route (Some "doc-1") loc)))
        = [FetchDocument (Some "doc-1")].
Proof.
  intros o state loc. split; [reflexivity|].
  destruct (mount_loading_iff_entry state "doc-1" loc eq_refl)
    as (props & el & Hout & Hiff & Hdispatch & _).
  exists props, el. split; [exact Hout|]. split; [exact Hiff | exact Hdispatch].
Defined.

End document_screen_lifecycle.

(** ** CollectionCard.render *)

Section collection_card_render.
Import CollectionCard.

(** Only an object can get past the guard: a primitive has no [id], and
    neither has an object of the runtime. *)
Lemma past_guard_object c i :
  truthy c = true → member c "id" = Some i → truthy i = true →
  ∃ o, c = VObj o ∧ truthy (own o "id") = true.
Proof.
  destruct c as [| |b|n|s|o|name]; cbn; try done.
  - by intros _ [= <-].
  - by intros _ [= <-].
  - by intros _ [= <-].
  - intros _ [= <-] ?. by exists o.
  - by intros _ [= <-].
Qed.

(** What [render] does with a collection that has an id. *)
Lemma render_card props o :
  collection props = VObj o →
  truthy (own o "id") = true →
  render props =
  MkEff (Member "collection" <$>
           ["id"; "count"; "summary"]
             ++ (if truthy (own o "summary") then ["summary"] else [])
             ++ ["summary"; "updated_at"])
        (Some (Elem "Collection.Link"
                 [("collection", AVal (VObj o));
                  ("className", AVal (VStr "noLinkDecoration"))]
                 [div "CollectionCard pt-card pt-elevation-1 pt-interactive"
                    [Elem "h4" []
                       [Elem "Collection.Label" [("collection", AVal (VObj o))] []];
                     div "facts"
                       [div "fact"
                          [Elem "Category" [("collection", AVal (VObj o))] []];
                        div "fact"
                          [formatted_message "collection.total.count" "{count} Entries"
                             [("count",
                               Elem "FormattedNumber"
                                    [("value", AVal (own o "count"))] [])]]];
                     (if truthy (own o "summary")
                      then Elem "p" []
                             [Elem "Truncate" [("lines", AVal (VNum 2))]
                                [Expr (own o "summary")]]
                      else Expr (own o "summary"));
                     (if truthy (own o "summary")
                      then Expr (VBool false)
                      else Elem "p" [("className", AVal (VStr "missing"))]
                             [formatted_message "collection.summary.missing"
                                "This collection has no description." []]);
                     div "bottom-fact"
                       [Elem "i" [("className", AVal (VStr "fa fa-fw fa-refresh"))] [];
                        formatted_message "collection.last_updated"
                          "Last updated: {date}"
                          [("date",
                            Elem "Date" [("value", AVal (own o "updated_at"))] [])]]]])).
Proof.
  intros Hc Hid. unfold render. rewrite Hc. cbn.
  unfold mbind, Eff_bind, eff_bind. cbn. rewrite Hid. cbn.
  by destruct (truthy (own o "summary")).
Qed.

(** The guard, decided. *)
Lemma guard_or_card c :
  (truthy c = false ∨ ∃ v, member c "id" = Some v ∧ truthy v = false)
  ∨ ∃ o, c = VObj o ∧ truthy (own o "id") = true.
Proof.
  destruct (truthy c) eqn:Hc; [|by left; left].
  destruct (member c "id") as [i|] eqn:Hi; [|by destruct c].
  destruct (truthy i) eqn:Hti.
  - right. by eapply past_guard_object.
  - left. right. by exists i.
Qed.

(** X10: [CollectionCard.render] never throws, whatever the
    [collection] prop is: [null] and [undefined] are caught by the guard
    before any property is read. *)
Theorem render_never_throws props : ∃ el, outcome (render props) = Some el.
Proof.
  destruct (guard_or_card (collection props)) as [Hguard|(o & Hc & Hid)].
  - rewrite (render_guard props Hguard). by eexists.
  - rewrite (render_card props o Hc Hid). by eexists.
Qed.

(** X11: [CollectionCard.render] returns the empty [span] exactly when
    the [collection] prop is falsy or its [id] is falsy; in every other case
    it returns a [Collection.Link] to the collection. *)
Theorem render_span_iff_guard props :
  let c := collection props in
  (outcome (render props) = Some (Elem "span" [] [])
   ↔ (truthy c = false ∨ ∃ v, member c "id" = Some v ∧ truthy v = false))
  ∧ (outcome (render props) ≠ Some (Elem "span" [] []) →
     ∃ children,
       outcome (render props)
       = Some (Elem "Collection.Link"
                 [("collection", AVal c);
                  ("className", AVal (VStr "noLinkDecoration"))] children)).
Proof.
  intros c. subst c.
  destruct (guard_or_card (collection props)) as [Hguard|(o & Hc & Hid)].
  - rewrite (render_guard props Hguard). cbn. split; [done|]. by intros [].
  - rewrite (render_card props o Hc Hid), Hc. cbn. split.
    + split; [done|]. intros [[=]|(v & [= <-] & Hv)]. congruence.
    + intros _. by eexists.
Qed.

(** X12: on the card of a collection that has an id, exactly one of
    the two paragraphs is rendered: the summary, truncated to two lines,
    when [collection.summary] is truthy, and the note that the collection
    has no description otherwise. *)
Theorem render_card_summary props o :
  collection props = VObj o →
  truthy (own o "id") = true →
  ∃ attrs heading facts bottom,
    outcome (render props)
    = Some (Elem "Collection.Link" attrs
              [div "CollectionCard pt-card pt-elevation-1 pt-interactive"
                 [heading; facts;
                  (if truthy (own o "summary")
                   then Elem "p" []
                          [Elem "Truncate" [("lines", AVal (VNum 2))]
                             [Expr (own o "summary")]]
                   else Expr (own o "summary"));
                  (if truthy (own o "summary")
                   then Expr (VBool false)
                   else Elem "p" [("className", AVal (VStr "missing"))]
                          [formatted_message "collection.summary.missing"
                             "This collection has no description." []]);
                  bottom]]).
Proof.
  intros Hc Hid. rewrite (render_card props o Hc Hid). cbn. by eexists _, _, _, _.
Qed.

Lemma render_card_summary_witness :
  let o := [("id", VNum 7); ("summary", VStr "papers")] in
  let props := {| collection := VObj o |} in
  collection props = VObj o
  ∧ truthy (own o "id") = true
  ∧ ∃ attrs heading facts bottom,
      outcome (render props)
      = Some (Elem "Collection.Link" attrs
                [div "CollectionCard pt-card pt-elevation-1 pt-interactive"
                   [heading; facts;
                    Elem "p" []
                      [Elem "Truncate" [("lines", AVal (VNum 2))]
                         [Expr (VStr "papers")]];
                    Expr (VBool false);
                    bottom]]).
Proof.
  intros o props. split; [reflexivity|]. split; [reflexivity|].
  exact (render_card_summary props o eq_refl eq_refl).
Defined.

(** X13: the card of a collection that has an id shows
    [collection.count] as its number of entries and [collection.updated_at]
    as its date of last update, as they are, also when they are missing. *)
Theorem render_card_facts props o :
  collection props = VObj o →
  truthy (own o "id") = true →
  ∃ attrs heading category summary missing icon,
    outcome (render props)
    = Some (Elem "Collection.Link" attrs
              [div "CollectionCard pt-card pt-elevation-1 pt-interactive"
                 [heading;
                  div "facts"
                    [category;
                     div "fact"
                       [formatted_message "collection.total.count" "{count} Entries"
                          [("count",
                            Elem "FormattedNumber"
                                 [("value", AVal (own o "count"))] [])]]];
                  summary; missing;
                  div "bottom-fact"
                    [icon;
                     formatted_message "collection.last_updated"
                       "Last updated: {date}"
                       [("date",
                         Elem "Date" [("value", AVal (own o "updated_at"))] [])]]]]).
Proof.
  intros Hc Hid. rewrite (render_card props o Hc Hid). cbn.
  by eexists _, _, _, _, _, _.
Qed.

Lemma render_card_facts_witness :
  let o := [("id", VNum 7); ("count", VNum 120)] in
  let props := {| collection := VObj o |} in
  collection props = VObj o
  ∧ truthy (own o "id") = true
  ∧ ∃ attrs heading category summary missing icon,
      outcome (render props)
      = Some (Elem "Collection.Link" attrs
                [div "CollectionCard pt-card pt-elevation-1 pt-interactive"
                   [heading;
                    div "facts"
                      [category;
                       div "fact"
                         [formatted_message "collection.total.count" "{count} Entries"
                            [("count",
                              Elem "FormattedNumber" [("value", AVal (VNum 120))] [])]]];
                    summary; missing;
                    div "bottom-fact"
                      [icon;
                       formatted_message "collection.last_updated"
                         "Last updated: {date}"
                         [("date", Elem "Date" [("value", AVal VUndefined)] [])]]]]).
Proof.
  intros o props. split; [reflexivity|]. split; [reflexivity|].
  exact (render_card_facts props o eq_refl eq_refl).
Defined.

(** X14: whatever the props, [CollectionCard.render] does nothing but
    read properties of [collection], and only these: [id], [count],
    [summary] and [updated_at]. *)
Theorem render_reads_only_card_fields props :
  only_reads (trace (render props))
  ∧ Forall (λ e, ∃ f, e = Member "collection" f
                      ∧ f ∈ ["id"; "count"; "summary"; "updated_at"])
           (trace (render props)).
Proof.
  assert (Hall : Forall (λ e, ∃ f, e = Member "collection" f
                                   ∧ f ∈ ["id"; "count"; "summary"; "updated_at"])
                        (trace (render props))).
  { destruct (guard_or_card (collection props)) as [Hguard|(o & Hc & Hid)].
    - rewrite (render_guard props Hguard). cbn.
      destruct (truthy (collection props)); repeat constructor.
      eexists. split; [done|]. apply list_elem_of_In. cbn. tauto.
    - rewrite (render_card props o Hc Hid). cbn.
      destruct (truthy (own o "summary")); cbn;
        repeat (constructor;
                [eexists; split; [done|apply list_elem_of_In; cbn; tauto]|]);
        constructor. }
  split; [|done].
  eapply Forall_impl; [exact Hall|]. by intros e (f & -> & _).
Qed.

End collection_card_render.

(** ** HomeCtrl *)

Section home_ctrl.
Import Home.

Lemma own_assign_eq k v o : own (assign k v o) k = v.
Proof.
  induction o as [|[k' v'] o IH]; cbn.
  - by rewrite String.eqb_refl.
  - destruct (String.eqb k' k) eqn:Hk; cbn.
    + by rewrite String.eqb_refl.
    + by rewrite Hk.
Qed.

Lemma own_assign_ne k v o k' : k ≠ k' → own (assign k v o) k' = own o k'.
Proof.
  intros Hne. pose proof (proj2 (String.eqb_neq k k') Hne) as Hkk'.
  induction o as [|[k0 v0] o IH]; cbn.
  - by rewrite Hkk'.
  - destruct (String.eqb k0 k) eqn:Hk; cbn.
    + apply String.eqb_eq in Hk. subst k0. by rewrite Hkk'.
    + by rewrite IH.
Qed.

Lemma member_None v f : member v f = None ↔ v = VUndefined ∨ v = VNull.
Proof. destruct v; cbn; split; try done; try (by intros [|]); by left + by right. Qed.

(** The controller on a [metadata] it can read [session] of. *)
Lemma HomeCtrl_run statistics metadata Authz session w :
  member metadata "session" = Some session →
  exec (HomeCtrl statistics metadata Authz) w =
  ({| scope :=
        assign "authz" Authz
          (assign "query" (VObj [("q", VStr EmptyString)])
             (assign "metadata" metadata
                (assign "session" session
                   (assign "statistics" statistics (scope w)))));
      submitSearch_installed := true;
      service_calls := service_calls w ++ [TitleSet "Welcome"] |}, Some tt).
Proof. intros Hs. unfold HomeCtrl. cbn. by rewrite Hs. Qed.

Lemma submitSearch_run form w :
  exec (submitSearch form) w =
  match member (own (scope w) "query") "q" with
  | Some q =>
      ({| scope := scope w;
          submitSearch_installed := submitSearch_installed w;
          service_calls :=
            service_calls w ++ [LocationPath "/search"; LocationSearch [("q", q)]] |},
       Some tt)
  | None =>
      ({| scope := scope w;
          submitSearch_installed := submitSearch_installed w;
          service_calls := service_calls w ++ [LocationPath "/search"] |}, None)
  end.
Proof.
  unfold submitSearch. cbn.
  destruct (member _ "q"); cbn; [|done]. by rewrite <- app_assoc.
Qed.

(** X15: when [metadata] is an object (or any value but [undefined]
    and [null]), the controller completes: [$scope] then holds the injected
    [statistics], [metadata] and [Authz], [metadata.session] as [session],
    and a fresh query with an empty [q]; every other property of [$scope] is
    as before; the title has been set to "Welcome", once, with no call to
    [$location]; and [submitSearch] is installed. *)
Theorem HomeCtrl_completes statistics metadata Authz session w :
  member metadata "session" = Some session →
  ∃ w', exec (HomeCtrl statistics metadata Authz) w = (w', Some tt)
        ∧ own (scope w') "statistics" = statistics
        ∧ own (scope w') "session" = session
        ∧ own (scope w') "metadata" = metadata
        ∧ own (scope w') "query" = VObj [("q", VStr EmptyString)]
        ∧ own (scope w') "authz" = Authz
        ∧ (∀ k, k ∉ ["statistics"; "session"; "metadata"; "query"; "authz"] →
                own (scope w') k = own (scope w) k)
        ∧ service_calls w' = service_calls w ++ [TitleSet "Welcome"]
        ∧ submitSearch_installed w' = true.
Proof.
  intros Hs. eexists. split; [by apply HomeCtrl_run|].
  cbn [scope service_calls submitSearch_installed]. repeat split.
  - rewrite !own_assign_ne by done. by rewrite own_assign_eq.
  - rewrite !own_assign_ne by done. by rewrite own_assign_eq.
  - rewrite !own_assign_ne by done. by rewrite own_assign_eq.
  - rewrite !own_assign_ne by done. by rewrite own_assign_eq.
  - by rewrite own_assign_eq.
  - intros k Hk. rewrite !own_assign_ne; [done|..];
      intros <-; apply Hk, list_elem_of_In; cbn; tauto.
Qed.

Lemma HomeCtrl_completes_witness :
  let metadata := VObj [("session", VObj [("logged_in", VBool false)])] in
  member metadata "session" = Some (VObj [("logged_in", VBool false)])
  ∧ ∃ w', exec (HomeCtrl (VNum 3) metadata VNull) blank = (w', Some tt)
          ∧ own (scope w') "session" = VObj [("logged_in", VBool false)]
          ∧ service_calls w' = [TitleSet "Welcome"].
Proof.
  intros metadata. split; [reflexivity|].
  destruct (HomeCtrl_completes (VNum 3) metadata VNull _ blank eq_refl)
    as (w' & Hrun & _ & Hsession & _ & _ & _ & _ & Hcalls & _).
  exists w'. split; [exact Hrun|]. split; [exact Hsession | exact Hcalls].
Defined.

(** X16: the controller throws exactly when [metadata] is [undefined]
    or [null]; it has then set [$scope.statistics] and nothing else: the
    title is not set and [submitSearch] is not installed. *)
Theorem HomeCtrl_throws_iff statistics metadata Authz w :
  (snd (exec (HomeCtrl statistics metadata Authz) w) = None
   ↔ metadata = VUndefined ∨ metadata = VNull)
  ∧ (snd (exec (HomeCtrl statistics metadata Authz) w) = None →
     fst (exec (HomeCtrl statistics metadata Authz) w)
     = {| scope := assign "statistics" statistics (scope w);
          submitSearch_installed := submitSearch_installed w;
          service_calls := service_calls w |}).
Proof.
  destruct (member metadata "session") as [session|] eqn:Hs.
  - rewrite (HomeCtrl_run _ _ _ _ _ Hs). cbn. split; [|done].
    rewrite <- (member_None _ "session"), Hs. done.
  - split.
    + rewrite <- (member_None metadata "session"). unfold HomeCtrl. cbn.
      by rewrite Hs.
    + intros _. unfold HomeCtrl. cbn. by rewrite Hs.
Qed.

(** X17: when [$scope.query] has a [q] to read, [submitSearch] sets the
    path to [/search] and then the search to [{q: $scope.query.q}], with
    the [q] that is in the scope at the time of the call; it leaves [$scope]
    alone and does not look at its [form] argument. *)
Theorem submitSearch_searches form w q :
  member (own (scope w) "query") "q" = Some q →
  exec (submitSearch form) w
  = ({| scope := scope w;
        submitSearch_installed := submitSearch_installed w;
        service_calls :=
          service_calls w ++ [LocationPath "/search"; LocationSearch [("q", q)]] |},
     Some tt).
Proof. intros Hq. by rewrite submitSearch_run, Hq. Qed.

Lemma submitSearch_searches_witness :
  let w := {| scope := [("query", VObj [("q", VStr "panama")])];
              submitSearch_installed := true;
              service_calls := [TitleSet "Welcome"] |} in
  member (own (scope w) "query") "q" = Some (VStr "panama")
  ∧ exec (submitSearch VUndefined) w
    = ({| scope := scope w;
          submitSearch_installed := true;
          service_calls :=
            [TitleSet "Welcome"; LocationPath "/search";
             LocationSearch [("q", VStr "panama")]] |}, Some tt).
Proof.
  intros w. split; [reflexivity|].
  exact (submitSearch_searches VUndefined w (VStr "panama") eq_refl).
Defined.

(** X18: [submitSearch] throws exactly when [$scope.query] is
    [undefined] or [null]; it has then already set the path to [/search],
    and has not set the search. *)
Theorem submitSearch_throws_iff form w :
  (snd (exec (submitSearch form) w) = None
   ↔ own (scope w) "query" = VUndefined ∨ own (scope w) "query" = VNull)
  ∧ (snd (exec (submitSearch form) w) = None →
     fst (exec (submitSearch form) w)
     = {| scope := scope w;
          submitSearch_installed := submitSearch_installed w;
          service_calls := service_calls w ++ [LocationPath "/search"] |}).
Proof.
  rewrite submitSearch_run, <- (member_None _ "q").
  by destruct (member _ "q").
Qed.

(** X19: submitting right after the controller ran, whatever the page
    held before, searches for the empty query: the services have seen the
    title set, then the path, then the search with an empty [q]. *)
Theorem HomeCtrl_then_submitSearch statistics metadata Authz session form w :
  member metadata "session" = Some session →
  ∃ w', exec (HomeCtrl statistics metadata Authz ≫= λ _, submitSearch form) w
        = (w', Some tt)
        ∧ service_calls w'
          = service_calls w
              ++ [TitleSet "Welcome"; LocationPath "/search";
                  LocationSearch [("q", VStr EmptyString)]].
Proof.
  intros Hs. unfold mbind at 1, M_bind. cbn [exec].
  rewrite (HomeCtrl_run _ _ _ _ _ Hs), submitSearch_run. cbn [scope].
  rewrite own_assign_ne, own_assign_eq by done. cbn.
  eexists. split; [done|]. cbn. by rewrite <- app_assoc.
Qed.

Lemma HomeCtrl_then_submitSearch_witness :
  let metadata := VObj [("session", VNull)] in
  member metadata "session" = Some VNull
  ∧ ∃ w', exec (HomeCtrl VUndefined metadata VUndefined
                  ≫= λ _, submitSearch VUndefined) blank
          = (w', Some tt)
          ∧ service_calls w'
            = [TitleSet "Welcome"; LocationPath "/search";
               LocationSearch [("q", VStr EmptyString)]].
Proof.
  intros metadata. split; [reflexivity|].
  exact (HomeCtrl_then_submitSearch VUndefined metadata VUndefined VNull VUndefined
           blank eq_refl).
Defined.

End home_ctrl.
